(** * MTG Chaos RPG: template generator, AI personality layer, game state store

    A shallow embedding of the three core classes of the repository,
    [PerchanceGenerator] (js/main.js), [AIService] and [GameState]
    (src/core/gameState.js), with the properties of the specification
    stated and settled against them.

    Conventions of the embedding.
    - JavaScript strings are [string]; numbers that the code only adds,
      subtracts and compares are [Z]; the trait vectors and thresholds
      written as decimal literals are [Q].
    - [Math.random()] is an oracle returning rationals of the half-open
      unit interval; [Date.now()] is an oracle returning integers.
    - A method that can throw returns an [outcome]; recursion that
      JavaScript bounds only by its call stack is bounded by a [fuel]
      argument, and running out of it is a distinct outcome.
    - Objects that the code mutates in place and shares by reference (the
      boss records) live in an explicit heap and are named by location. *)

From Stdlib Require Import ZArith QArith Qround String Ascii List Lia.
From Stdlib Require Import DecimalString DecimalNat.
From stdpp Require Import gmap strings list.

Import ListNotations.
Local Open Scope string_scope.
Local Open Scope Z_scope.
Local Open Scope list_scope.

(** ** Common definitions *)

(** What a call produces: a value, a thrown [Error] with its message, or
    no result within the depth of calls that the fuel allows. *)
Inductive outcome (A : Type) : Type :=
| Returned (a : A)
| Thrown (message : string)
| OutOfFuel.
Arguments Returned {A} a.
Arguments Thrown {A} message.
Arguments OutOfFuel {A}.

(** A value of [Math.random()]: a rational [r] with [0 <= r < 1]. *)
Definition in_unit_interval (r : Q) : bool :=
  Qle_bool 0 r && negb (Qle_bool 1 r).

Record unitQ : Type := UnitQ {
  uq_val :> Q;
  uq_range : in_unit_interval uq_val = true
}.

(** [Math.floor(Math.random() * n)] *)
Definition floorRandom (r : unitQ) (n : nat) : nat :=
  Z.to_nat (Qfloor (uq_val r * inject_Z (Z.of_nat n))).

(** Decimal rendering of a number inside a template literal. *)
Definition decimal (n : nat) : string :=
  NilZero.string_of_uint (Nat.to_uint n).

(** ** The template generator: class [PerchanceGenerator] *)

Module Generator.

(** *** String primitives used by [processNestedGenerators] *)

(** Offset of the first [']'] of [s]. *)
Fixpoint find_close (s : string) : option nat :=
  match s with
  | EmptyString => None
  | String c s' =>
      if Ascii.eqb c "]" then Some O
      else match find_close s' with
           | Some k => Some (S k)
           | None => None
           end
  end.

(** The pattern [\[([^\]]+)\]] anchored at the head of [s]: an opening
    bracket, one or more characters other than a closing bracket, and a
    closing bracket.  The result is the captured group 1. *)
Definition match_here (s : string) : option string :=
  match s with
  | String c rest =>
      if Ascii.eqb c "[" then
        match find_close rest with
        | Some (S k) => Some (substring 0 (S k) rest)
        | _ => None
        end
      else None
  | EmptyString => None
  end.

(** One successful [exec]: where the match starts, its whole text
    [match[0]], the captured name [match[1]], and the [lastIndex] the
    regular expression object is left with. *)
Record Match : Type := mkMatch {
  m_index : nat;
  m_text : string;
  m_name : string;
  m_lastIndex : nat
}.

(** Leftmost match in the suffix [s], which starts at position [pos]. *)
Fixpoint scan (s : string) (pos : nat) : option Match :=
  match match_here s with
  | Some name =>
      Some (mkMatch pos ("[" +:+ name +:+ "]") name (pos + String.length name + 2))
  | None =>
      match s with
      | EmptyString => None
      | String _ s' => scan s' (S pos)
      end
  end.

(** [generatorRegex.exec(str)] for the global regular expression whose
    [lastIndex] is [lastIndex]; [None] is JavaScript's [null], after
    which [lastIndex] is 0 again. *)
Definition regex_exec (str : string) (lastIndex : nat) : option Match :=
  if (String.length str <? lastIndex)%nat then None
  else scan (substring lastIndex (String.length str - lastIndex) str) lastIndex.

(** The replacement patterns of [String.prototype.replace] when the
    pattern is a string, so that there are no capture groups:
    [$$], [$&], [$`] and [$'] are interpreted, every other character,
    including a dollar sign followed by a digit, is copied. *)
Fixpoint getSubstitution (matched before after template : string) : string :=
  match template with
  | EmptyString => EmptyString
  | String c rest =>
      if Ascii.eqb c "$" then
        match rest with
        | String d rest' =>
            if Ascii.eqb d "$" then String "$" (getSubstitution matched before after rest')
            else if Ascii.eqb d "&" then matched +:+ getSubstitution matched before after rest'
            else if Ascii.eqb d "`" then before +:+ getSubstitution matched before after rest'
            else if Ascii.eqb d "'" then after +:+ getSubstitution matched before after rest'
            else String c (getSubstitution matched before after rest)
        | EmptyString => String c EmptyString
        end
      else String c (getSubstitution matched before after rest)
  end.

(** [str.replace(pattern, replacement)] with a string pattern: only the
    first occurrence of [pattern] in [str] is replaced, wherever the
    regular expression found its match. *)
Definition replace (str pattern replacement : string) : string :=
  match index 0 pattern str with
  | None => str
  | Some p =>
      let before := substring 0 p str in
      let after :=
        substring (p + String.length pattern)
                  (String.length str - (p + String.length pattern)) str in
      before +:+ getSubstitution pattern before after replacement +:+ after
  end.

(** *** Generator table and history *)

Record GeneratorEntry : Type := mkEntry {
  weight : Z;
  items : list string
}.

(** The object passed to [addGenerator]; either property may be absent. *)
Record GeneratorInput : Type := mkInput {
  in_weight : option Z;
  in_items : option (list string)
}.

Record HistoryRecord : Type := mkHistory {
  h_generator : string;
  h_result : string;
  h_timestamp : Z
}.

(** The instance fields, and the number of [Math.random()] values
    consumed so far. *)
Record t : Type := mkGen {
  generators : gmap string GeneratorEntry;
  history : list HistoryRecord;
  drawn : nat
}.

Definition maxIterations : nat := 10.

Section WithOracles.

(** [random k] is the value of the [k]-th call of [Math.random()];
    [dateNow k] is the value of [Date.now()] when the [k]-th history
    record is pushed. *)
Variable random : nat -> unitQ.
Variable dateNow : nat -> Z.

(** [addGenerator(name, generator)]: the defaults [weight: 1] and
    [items: []] are overridden by the spread of [generator] whenever it
    has the property. *)
Definition addGenerator (name : string) (g : GeneratorInput) (st : t) : t :=
  mkGen (<[name := mkEntry (default 1 (in_weight g)) (default [] (in_items g))]> (generators st))
        (history st) (drawn st).

(** [selectRandomItem(items)].  The index is below the length
    ([floorRandom_lt]), so the element read is never the [undefined] of
    an index out of range. *)
Definition selectRandomItem (its : list string) (st : t) : string * t :=
  match its with
  | [] => ("Empty generator", st)
  | _ :: _ =>
      let randomIndex := floorRandom (random (drawn st)) (List.length its) in
      (nth randomIndex its "undefined",
       mkGen (generators st) (history st) (S (drawn st)))
  end.

(** The [while] loop of [processNestedGenerators]; [budget] is
    [maxIterations - iterations], and [gen] is the recursive call
    [this.generate(name, { recordHistory: false })]. *)
Fixpoint nestedLoop (gen : string -> t -> outcome (string * t))
    (budget : nat) (result : string) (lastIndex : nat) (st : t)
    : outcome (string * t) :=
  match regex_exec result lastIndex with
  | None => Returned (result, st)
  | Some m =>
      match budget with
      | O => Returned (result, st)
      | S budget' =>
          match generators st !! m_name m with
          | Some _ =>
              match gen (m_name m) st with
              | Returned (replacement, st') =>
                  nestedLoop gen budget' (replace result (m_text m) replacement) 0 st'
              | Thrown e => Thrown e
              | OutOfFuel => OutOfFuel
              end
          | None => nestedLoop gen budget' result (m_lastIndex m) st
          end
      end
  end.

Definition processNestedGenerators (gen : string -> t -> outcome (string * t))
    (text : string) (st : t) : outcome (string * t) :=
  nestedLoop gen maxIterations text 0 st.

(** [generate(generatorName, options)]; [fuel] bounds the depth of the
    calls of [generate] nested through [processNestedGenerators]. *)
Fixpoint generate (fuel : nat) (generatorName : string) (recordHistory : bool)
    (st : t) : outcome (string * t) :=
  match fuel with
  | O => OutOfFuel
  | S fuel' =>
      match generators st !! generatorName with
      | None => Thrown ("Generator '" +:+ generatorName +:+ "' not found")
      | Some generator =>
          let '(item, st1) := selectRandomItem (items generator) st in
          match processNestedGenerators (fun n s => generate fuel' n false s) item st1 with
          | Returned (result, st2) =>
              if recordHistory then
                Returned (result,
                  mkGen (generators st2)
                        (history st2 ++
                           [mkHistory generatorName result (dateNow (List.length (history st2)))])
                        (drawn st2))
              else Returned (result, st2)
          | Thrown e => Thrown e
          | OutOfFuel => OutOfFuel
          end
      end
  end.

End WithOracles.

(** An instance with no generator registered. *)
Definition empty : t := mkGen ∅ [] 0.

End Generator.

(** ** The AI content layer: class [AIService] *)

Module AI.

Record Personality : Type := mkPersonality {
  creativity : Q;
  danger : Q;
  humor : Q;
  description : string
}.

(** The object literal [this.personalities] of the constructor. *)
Definition personalities : list (string * Personality) :=
  [ ("default",
      mkPersonality 0.7 0.5 0.3 "Balanced gameplay with moderate challenge");
    ("cautious",
      mkPersonality 0.5 0.3 0.2 "Safe, predictable encounters with lower difficulty");
    ("experimental",
      mkPersonality 0.9 0.6 0.5 "Creative, unpredictable scenarios with unique twists");
    ("reckless",
      mkPersonality 0.8 0.9 0.4 "High-risk, high-reward encounters with intense challenges") ].

Definition catalogKeys : list string := map fst personalities.

(** [this.personalities] is a plain object, so a bracket lookup that
    misses its own four properties continues in [Object.prototype].
    These are the property names ECMAScript defines there (Annex B
    included); each of them holds a function or, for [__proto__], an
    object, hence a truthy value. *)
Definition objectPrototypeKeys : list string :=
  [ "constructor"; "hasOwnProperty"; "isPrototypeOf"; "propertyIsEnumerable";
    "toLocaleString"; "toString"; "valueOf"; "__proto__";
    "__defineGetter__"; "__defineSetter__"; "__lookupGetter__"; "__lookupSetter__" ].

(** The value of [this.personalities[key]]. *)
Inductive Property : Type :=
| Own (p : Personality)
| Inherited (name : string)
| Undefined.

Fixpoint assoc (key : string) (table : list (string * Personality)) : option Personality :=
  match table with
  | [] => None
  | (k, p) :: rest => if String.eqb k key then Some p else assoc key rest
  end.

Definition lookup (key : string) : Property :=
  match assoc key personalities with
  | Some p => Own p
  | None =>
      if existsb (String.eqb key) objectPrototypeKeys then Inherited key
      else Undefined
  end.

Definition truthy (v : Property) : bool :=
  match v with
  | Undefined => false
  | _ => true
  end.

Inductive Level : Type := log | warn.

(** The instance: the current personality key, and what the methods have
    written to the console. *)
Record t : Type := mkAI {
  personality : string;
  console : list (Level * string)
}.

Definition init : t := mkAI "default" [].

(** [setPersonality(personality)] *)
Definition setPersonality (key : string) (ai : t) : t :=
  if truthy (lookup key) then
    mkAI key (console ai ++ [(log, "AI Personality set to: " +:+ key)])
  else
    mkAI "default"
         (console ai ++ [(warn, "Unknown personality: " +:+ key +:+ ", using default")]).

(** [getPersonality()] *)
Definition getPersonality (ai : t) : Property := lookup (personality ai).

Record QuestGiver : Type := mkQuestGiver {
  qg_name : string;
  qg_type : string;
  trustworthy : Q
}.

Definition questGivers : list QuestGiver :=
  [ mkQuestGiver "Elder Sage Meridian" "wizard" 0.9;
    mkQuestGiver "Captain Ironheart" "warrior" 0.8;
    mkQuestGiver "Mysterious Stranger" "rogue" 0.4;
    mkQuestGiver "Village Elder" "civilian" 0.95;
    mkQuestGiver "Shadowy Figure" "unknown" 0.3 ].

(** [a > b] on numbers. *)
Definition gt (a b : Q) : bool := negb (Qle_bool a b).

(** [generateQuestGiver(personality)]; [r] is the one value drawn from
    [Math.random()], and [None] is an [undefined] array element. *)
Definition generateQuestGiver (p : Personality) (r : unitQ) : option QuestGiver :=
  if gt (danger p) 0.7 then
    questGivers !! floorRandom r (List.length questGivers)
  else
    List.filter (fun qg => gt (trustworthy qg) 0.7) questGivers !! floorRandom r 3.

(** The three catalog entries named by the specification as the
    trustworthy ones. *)
Definition trusted : list QuestGiver :=
  [ mkQuestGiver "Elder Sage Meridian" "wizard" 0.9;
    mkQuestGiver "Captain Ironheart" "warrior" 0.8;
    mkQuestGiver "Village Elder" "civilian" 0.95 ].

End AI.

(** ** The game state store: class [GameState] *)

Module Store.

(** *** Entities *)

Module Card.
Record t : Type := mk {
  id : string;
  name : string;
  mana_cost : string;
  type_line : string;
  oracle_text : string
}.
End Card.

Module Mana.
Record t : Type := mk {
  white : Z; blue : Z; black : Z; red : Z; green : Z; colorless : Z
}.
End Mana.

Module Player.
Record t : Type := mk {
  id : string;
  name : string;
  health : Z;
  maxHealth : Z;
  mana : Mana.t;
  hand : list Card.t;
  battlefield : list Card.t;
  graveyard : list Card.t;
  library : list Card.t;
  abilities : list string;
  experience : Z;
  level : Z
}.
End Player.

Module Boss.
Record t : Type := mk {
  id : string;
  name : string;
  health : Z;
  maxHealth : Z;
  abilities : list string;
  weaknesses : list string;
  resistances : list string;
  difficulty : Z;
  defeated : bool;
  location : string
}.

(** [boss.health = h] *)
Definition set_health (h : Z) (b : t) : t :=
  mk (id b) (name b) h (maxHealth b) (abilities b) (weaknesses b)
     (resistances b) (difficulty b) (defeated b) (location b).

(** [boss.defeated = d] *)
Definition set_defeated (d : bool) (b : t) : t :=
  mk (id b) (name b) (health b) (maxHealth b) (abilities b) (weaknesses b)
     (resistances b) (difficulty b) d (location b).
End Boss.

Module Encounter.
Record t : Type := mk {
  title : string;
  location : string;
  weather : string;
  difficulty : Z;
  rewards : list string;
  special : option string
}.
End Encounter.

Module Item.
(** An inventory entry; [id] is absent on the object handed to
    [addToInventory] and present once it is stored. *)
Record t : Type := mk {
  id : option string;
  name : string;
  type : string;
  description : string
}.
End Item.

Module Quest.
(** A quest-log entry; [id], [status] and [progress] are absent on the
    object handed to [addQuest] unless the caller supplied them. *)
Record t : Type := mk {
  id : option string;
  title : string;
  objective : string;
  status : option string;
  progress : option Z;
  rewards : list string
}.
End Quest.

(** The card zones of a player, that is, the keys [zone] for which
    [player[zone]] is an array of cards.  [playCard] documents
    ['battlefield'] (its default) and ['graveyard']. *)
Module Zone.
Inductive t : Type := hand | battlefield | graveyard | library.

Definition eqb (a b : t) : bool :=
  match a, b with
  | hand, hand | battlefield, battlefield
  | graveyard, graveyard | library, library => true
  | _, _ => false
  end.
End Zone.

(** A primitive value stored under a key of [gameSettings]. *)
Inductive Prim : Type :=
| PBool (b : bool)
| PNum (n : Z)
| PStr (s : string).

(** Boss objects are mutated in place and shared by reference: a
    location names one object of the heap. *)
Definition loc : Type := nat.

(** *** The state tree *)

Record State : Type := mkState {
  gamePhase : string;
  currentTurn : Z;
  players : list Player.t;
  currentBoss : option loc;
  currentEncounter : option Encounter.t;
  location : option string;
  inventory : list Item.t;
  quests : list Quest.t;
  defeatedBosses : list string;
  gameSettings : gmap string Prim
}.

(** The argument of [updateState]: an object holding some of the keys of
    the state.  A key that is present with the value [null] is
    [Some None]. *)
Record Updates : Type := mkUpdates {
  u_gamePhase : option string;
  u_currentTurn : option Z;
  u_players : option (list Player.t);
  u_currentBoss : option (option loc);
  u_currentEncounter : option (option Encounter.t);
  u_location : option (option string);
  u_inventory : option (list Item.t);
  u_quests : option (list Quest.t);
  u_defeatedBosses : option (list string);
  u_gameSettings : option (gmap string Prim)
}.

Definition noUpdates : Updates :=
  mkUpdates None None None None None None None None None None.

(** [{ ...state, ...updates }] *)
Definition merge (s : State) (u : Updates) : State :=
  mkState (default (gamePhase s) (u_gamePhase u))
          (default (currentTurn s) (u_currentTurn u))
          (default (players s) (u_players u))
          (default (currentBoss s) (u_currentBoss u))
          (default (currentEncounter s) (u_currentEncounter u))
          (default (location s) (u_location u))
          (default (inventory s) (u_inventory u))
          (default (quests s) (u_quests u))
          (default (defeatedBosses s) (u_defeatedBosses u))
          (default (gameSettings s) (u_gameSettings u)).

Record GameData : Type := mkGameData {
  bosses : list loc;
  encounters : list Encounter.t;
  playerCards : list Card.t;
  customContent : list string
}.

(** The record built by [saveGame] and read by [loadGame].  [loadGame]
    tests [saveData.state], so that property may be missing. *)
Record SaveData : Type := mkSaveData {
  version : string;
  timestamp : Z;
  sd_state : option State;
  sd_gameData : GameData
}.

(** The [options] of [startNewGame]. *)
Record Options : Type := mkOptions {
  playerCount : option Z;
  playerNames : option (list string)
}.

(** The argument of [startBossEncounter]: a boss id or a boss object. *)
Inductive BossArg : Type :=
| BossId (id : string)
| BossObject (b : Boss.t).

(** *** Observers *)

(** The change objects handed to the observers, one constructor per
    [type].  [boss_damaged] and [boss_defeated] refer to the current
    boss, an object of the heap, by its location;
    [boss_encounter_started] holds the boss as it was found or given. *)
Inductive Change : Type :=
| state_update (previous current : State) (updates : Updates)
| game_started (options : Options)
| game_loaded (saveData : SaveData)
| game_saved (saveData : SaveData)
| boss_encounter_started (boss : Boss.t)
| encounter_started (encounter : Encounter.t)
| boss_damaged (damage : Z) (boss : loc)
| boss_defeated (boss : loc) (victory : bool)
| card_added_to_hand (playerId : string) (card : Card.t)
| card_played (playerId : string) (card : Card.t) (zone : Zone.t)
| item_added_to_inventory (item : Item.t)
| quest_added (quest : Quest.t)
| quest_progress_updated (questId : string) (progress : Z)
| location_changed (location : string)
| settings_updated (settings : gmap string Prim)
| game_reset.

(** The [type] property of a change object. *)
Definition changeType (c : Change) : string :=
  match c with
  | state_update _ _ _ => "state_update"
  | game_started _ => "game_started"
  | game_loaded _ => "game_loaded"
  | game_saved _ => "game_saved"
  | boss_encounter_started _ => "boss_encounter_started"
  | encounter_started _ => "encounter_started"
  | boss_damaged _ _ => "boss_damaged"
  | boss_defeated _ _ => "boss_defeated"
  | card_added_to_hand _ _ => "card_added_to_hand"
  | card_played _ _ _ => "card_played"
  | item_added_to_inventory _ => "item_added_to_inventory"
  | quest_added _ => "quest_added"
  | quest_progress_updated _ _ => "quest_progress_updated"
  | location_changed _ => "location_changed"
  | settings_updated _ => "settings_updated"
  | game_reset => "game_reset"
  end.

(** A callback is known by the identity of its function object.  One
    invocation [callback(this.state, change)] is recorded with the
    arguments it received.  Callbacks are taken to be observers proper:
    they do not call back into the store, and what they throw is caught
    by [notifyObservers]. *)
Definition Callback : Type := nat.

Record Call : Type := mkCall {
  callee : Callback;
  seen : State;
  change : Change
}.

(** The instance: its fields, the heap of boss objects with the next
    free location, and the invocations of callbacks so far. *)
Record t : Type := mkStore {
  state : State;
  observers : list Callback;
  gameData : GameData;
  heap : loc -> Boss.t;
  next : loc;
  calls : list Call
}.

(** *** Construction *)

(** The boss templates of [initializeGameData]. *)
Definition defaultBosses : list Boss.t :=
  [ Boss.mk "vorthak-destroyer" "Vorthak the Destroyer" 150 150
      ["Chaos Storm"; "Reality Rift"; "Void Manipulation"]
      ["white"; "blue"] ["black"; "red"] 8 false "The Chaos Nexus";
    Boss.mk "malachar-corrupted" "Malachar the Corrupted" 120 120
      ["Soul Drain"; "Shadow Minions"; "Corrupt Spells"]
      ["white"; "green"] ["black"] 6 false "The Shadowlands";
    Boss.mk "nethys-ancient" "Nethys the Ancient" 200 200
      ["Time Manipulation"; "Ancient Knowledge"; "Planar Binding"]
      ["red"; "green"] ["blue"; "white"] 9 false "The Temporal Sanctum" ].

Definition defaultPlayer : Player.t :=
  Player.mk "" "Player" 20 20 (Mana.mk 0 0 0 0 0 0) [] [] [] [] [] 0 1.

Definition defaultSettings : gmap string Prim :=
  <["autoTapLands" := PBool false]>
  (<["showCardPreviews" := PBool true]>
  (<["soundVolume" := PNum 50]>
  (<["difficulty" := PStr "normal"]> ∅))).

Definition initialState : State :=
  mkState "menu" 0 [] None None None [] [] [] defaultSettings.

(** [new GameState()]: the three boss objects are allocated at the
    locations 0, 1 and 2. *)
Definition create : t :=
  mkStore initialState []
          (mkGameData (seq 0 (List.length defaultBosses)) [] [] [])
          (fun l => nth l defaultBosses (Boss.mk "" "" 0 0 [] [] [] 0 false ""))
          (List.length defaultBosses)
          [].

(** *** Heap access *)

(** Mutation of the object at [l]. *)
Definition mutate (f : Boss.t -> Boss.t) (l : loc) (h : loc -> Boss.t) : loc -> Boss.t :=
  fun l' => if Nat.eqb l' l then f (h l') else h l'.

Definition with_heap (h : loc -> Boss.t) (st : t) : t :=
  mkStore (state st) (observers st) (gameData st) h (next st) (calls st).

(** [{ ...bossData }]: a new object with the same properties. *)
Definition allocate (b : Boss.t) (st : t) : loc * t :=
  (next st,
   mkStore (state st) (observers st) (gameData st)
           (fun l' => if Nat.eqb l' (next st) then b else heap st l')
           (S (next st)) (calls st)).

(** *** Observer methods *)

Definition subscribe (callback : Callback) (st : t) : t :=
  mkStore (state st) (observers st ++ [callback]) (gameData st)
          (heap st) (next st) (calls st).

Definition unsubscribe (callback : Callback) (st : t) : t :=
  mkStore (state st)
          (List.filter (fun obs => negb (Nat.eqb obs callback)) (observers st))
          (gameData st) (heap st) (next st) (calls st).

Definition notifyObservers (c : Change) (st : t) : t :=
  mkStore (state st) (observers st) (gameData st) (heap st) (next st)
          (calls st ++ map (fun callback => mkCall callback (state st) c) (observers st)).

Definition updateState (updates : Updates) (st : t) : t :=
  let previousState := state st in
  let st' := mkStore (merge (state st) updates) (observers st) (gameData st)
                     (heap st) (next st) (calls st) in
  notifyObservers (state_update previousState (state st') updates) st'.

(** *** Game flow *)

(** [options.playerNames?.[i] || `Player ${i + 1}`]: a missing or empty
    name is falsy. *)
Definition playerName (options : Options) (i : nat) : string :=
  match playerNames options with
  | Some names =>
      match names !! i with
      | Some n => if String.eqb n "" then "Player " +:+ decimal (i + 1) else n
      | None => "Player " +:+ decimal (i + 1)
      end
  | None => "Player " +:+ decimal (i + 1)
  end.

Definition with_identity (id name : string) (p : Player.t) : Player.t :=
  Player.mk id name (Player.health p) (Player.maxHealth p) (Player.mana p)
            (Player.hand p) (Player.battlefield p) (Player.graveyard p)
            (Player.library p) (Player.abilities p) (Player.experience p)
            (Player.level p).

(** [startNewGame(options = {})]; [None] is a call without argument.  A
    [playerCount] that is missing or 0 is falsy; [Array.from] reads a
    negative length as 0. *)
Definition startNewGame (arg : option Options) (st : t) : t :=
  let options := default (mkOptions None None) arg in
  let newPlayers :=
    match playerCount options with
    | Some n =>
        if Z.eqb n 0 then [with_identity "player-1" "Player 1" defaultPlayer]
        else map (fun i => with_identity ("player-" +:+ decimal (i + 1))
                                         (playerName options i) defaultPlayer)
                 (seq 0 (Z.to_nat n))
    | None => [with_identity "player-1" "Player 1" defaultPlayer]
    end in
  notifyObservers (game_started options)
    (updateState
       (mkUpdates (Some "playing") (Some 1) (Some newPlayers) (Some None) (Some None)
                  (Some (Some "Starting Village")) (Some []) (Some []) (Some []) None)
       st).

(** [loadGame(saveData)], for a record of the shape that [saveGame]
    builds, with or without its [state]. *)
Definition loadGame (saveData : SaveData) (st : t) : outcome t :=
  match sd_state saveData with
  | None => Thrown "Invalid save data"
  | Some s =>
      Returned
        (notifyObservers (game_loaded saveData)
           (mkStore s (observers st) (sd_gameData saveData)
                    (heap st) (next st) (calls st)))
  end.

(** [saveGame()]; [now] is the value of [Date.now()]. *)
Definition saveGame (now : Z) (st : t) : SaveData * t :=
  let saveData := mkSaveData "1.0.0" now (Some (state st)) (gameData st) in
  (saveData, notifyObservers (game_saved saveData) st).

(** *** Boss encounters *)

(** [this.gameData.bosses.find(b => b.id === id)] *)
Definition findBoss (id : string) (st : t) : option (nat * loc) :=
  list_find (fun l => Boss.id (heap st l) = id) (bosses (gameData st)).

Definition startBossEncounter (boss : BossArg) (st : t) : outcome t :=
  let bossData :=
    match boss with
    | BossId id => option_map (fun il => heap st (snd il)) (findBoss id st)
    | BossObject b => Some b
    end in
  match bossData with
  | None => Thrown "Boss not found"
  | Some b =>
      let '(l, st1) := allocate b st in
      Returned
        (notifyObservers (boss_encounter_started b)
           (updateState
              (mkUpdates (Some "boss") None None (Some (Some l)) (Some None)
                         None None None None None)
              st1))
  end.

Definition startEncounter (encounter : Encounter.t) (st : t) : t :=
  notifyObservers (encounter_started encounter)
    (updateState
       (mkUpdates (Some "encounter") None None (Some None) (Some (Some encounter))
                  None None None None None)
       st).

Definition defeatBoss (st : t) : outcome t :=
  match currentBoss (state st) with
  | None => Thrown "No active boss to defeat"
  | Some defeatedBoss =>
      let newDefeatedBosses :=
        defeatedBosses (state st) ++ [Boss.id (heap st defeatedBoss)] in
      let st1 :=
        match findBoss (Boss.id (heap st defeatedBoss)) st with
        | Some (_, l) => with_heap (mutate (Boss.set_defeated true) l (heap st)) st
        | None => st
        end in
      let allBossesDefeated :=
        forallb (fun l => Boss.defeated (heap st1 l)) (bosses (gameData st1)) in
      Returned
        (notifyObservers (boss_defeated defeatedBoss allBossesDefeated)
           (updateState
              (mkUpdates (Some (if allBossesDefeated then "victory" else "playing"))
                         None None (Some None) None None None None
                         (Some newDefeatedBosses) None)
              st1))
  end.

Definition damageBoss (damage : Z) (st : t) : outcome t :=
  match currentBoss (state st) with
  | None => Thrown "No active boss to damage"
  | Some boss =>
      let st1 :=
        with_heap
          (mutate (fun b => Boss.set_health (Z.max 0 (Boss.health b - damage)) b)
                  boss (heap st))
          st in
      if Boss.health (heap st1 boss) <=? 0 then defeatBoss st1
      else
        Returned
          (notifyObservers (boss_damaged damage boss)
             (updateState
                (mkUpdates None None None (Some (Some boss)) None None None None None None)
                st1))
  end.

(** *** Cards, inventory, quests, settings *)

Definition with_hand (h : list Card.t) (p : Player.t) : Player.t :=
  Player.mk (Player.id p) (Player.name p) (Player.health p) (Player.maxHealth p)
            (Player.mana p) h (Player.battlefield p) (Player.graveyard p)
            (Player.library p) (Player.abilities p) (Player.experience p)
            (Player.level p).

(** [player[zone]] *)
Definition getZone (zone : Zone.t) (p : Player.t) : list Card.t :=
  match zone with
  | Zone.hand => Player.hand p
  | Zone.battlefield => Player.battlefield p
  | Zone.graveyard => Player.graveyard p
  | Zone.library => Player.library p
  end.

(** [{ ...player, [zone]: cards }] *)
Definition setZone (zone : Zone.t) (cards : list Card.t) (p : Player.t) : Player.t :=
  Player.mk (Player.id p) (Player.name p) (Player.health p) (Player.maxHealth p)
            (Player.mana p)
            (if Zone.eqb zone Zone.hand then cards else Player.hand p)
            (if Zone.eqb zone Zone.battlefield then cards else Player.battlefield p)
            (if Zone.eqb zone Zone.graveyard then cards else Player.graveyard p)
            (if Zone.eqb zone Zone.library then cards else Player.library p)
            (Player.abilities p) (Player.experience p) (Player.level p).

Definition addCardToHand (playerId : string) (card : Card.t) (st : t) : t :=
  let newPlayers :=
    map (fun player =>
           if String.eqb (Player.id player) playerId
           then with_hand (Player.hand player ++ [card]) player
           else player)
        (players (state st)) in
  notifyObservers (card_added_to_hand playerId card)
    (updateState
       (mkUpdates None None (Some newPlayers) None None None None None None None) st).

(** The object returned for a matching player by the callback of
    [playCard]: in [{ ...player, hand, [zone]: targetZone }] the computed
    key is written last. *)
Definition playCardOn (card : Card.t) (zone : Zone.t) (player : Player.t) : Player.t :=
  let newHand :=
    List.filter (fun c => negb (String.eqb (Card.id c) (Card.id card))) (Player.hand player) in
  let targetZone := getZone zone player ++ [card] in
  setZone zone targetZone (with_hand newHand player).

Definition playCard (playerId : string) (card : Card.t) (zone : Zone.t) (st : t) : t :=
  let newPlayers :=
    map (fun player =>
           if String.eqb (Player.id player) playerId
           then playCardOn card zone player
           else player)
        (players (state st)) in
  notifyObservers (card_played playerId card zone)
    (updateState
       (mkUpdates None None (Some newPlayers) None None None None None None None) st).

(** The identifier [`${prefix}-${Date.now()}-${suffix}`], where [suffix]
    stands for [Math.random().toString(36).substr(2, 9)]. *)
Definition freshId (prefix : string) (now : nat) (suffix : string) : string :=
  prefix +:+ "-" +:+ decimal now +:+ "-" +:+ suffix.

Definition addToInventory (item : Item.t) (now : nat) (suffix : string) (st : t) : t :=
  let newInventory :=
    inventory (state st) ++
      [Item.mk (Some (freshId "item" now suffix)) (Item.name item) (Item.type item)
               (Item.description item)] in
  notifyObservers (item_added_to_inventory item)
    (updateState
       (mkUpdates None None None None None None (Some newInventory) None None None) st).

Definition addQuest (quest : Quest.t) (now : nat) (suffix : string) (st : t) : t :=
  let newQuests :=
    quests (state st) ++
      [Quest.mk (Some (freshId "quest" now suffix)) (Quest.title quest)
                (Quest.objective quest) (Some "active") (Some 0) (Quest.rewards quest)] in
  notifyObservers (quest_added quest)
    (updateState
       (mkUpdates None None None None None None None (Some newQuests) None None) st).

Definition updateQuestProgress (questId : string) (progress : Z) (st : t) : t :=
  let newQuests :=
    map (fun quest =>
           match Quest.id quest with
           | Some i =>
               if String.eqb i questId then
                 let completed := 100 <=? progress in
                 Quest.mk (Quest.id quest) (Quest.title quest) (Quest.objective quest)
                          (Some (if completed then "completed" else "active"))
                          (Some progress) (Quest.rewards quest)
               else quest
           | None => quest
           end)
        (quests (state st)) in
  notifyObservers (quest_progress_updated questId progress)
    (updateState
       (mkUpdates None None None None None None None (Some newQuests) None None) st).

Definition changeLocation (newLocation : string) (st : t) : t :=
  notifyObservers (location_changed newLocation)
    (updateState
       (mkUpdates None None None None None (Some (Some newLocation)) None None None None) st).

(** [{ ...this.state.gameSettings, ...settings }]: the keys of
    [settings] win. *)
Definition updateSettings (settings : gmap string Prim) (st : t) : t :=
  let newSettings := settings ∪ gameSettings (state st) in
  notifyObservers (settings_updated newSettings)
    (updateState
       (mkUpdates None None None None None None None None None (Some newSettings)) st).

(** The loop of [resetGame] over the catalog. *)
Definition resetBoss (b : Boss.t) : Boss.t :=
  let b1 := Boss.set_defeated false b in
  Boss.set_health (Boss.maxHealth b1) b1.

Definition resetGame (st : t) : t :=
  let st1 :=
    mkStore
      (mkState "menu" 0 [] None None None [] [] [] (gameSettings (state st)))
      (observers st) (gameData st)
      (fold_left (fun h l => mutate resetBoss l h) (bosses (gameData st)) (heap st))
      (next st) (calls st) in
  notifyObservers game_reset st1.

(** *** Read accessors *)

Definition getPlayer (playerId : string) (st : t) : option Player.t :=
  find (fun player => String.eqb (Player.id player) playerId) (players (state st)).

Definition getBosses (st : t) : list Boss.t :=
  map (heap st) (bosses (gameData st)).

Definition getUndefeatedBosses (st : t) : list Boss.t :=
  List.filter (fun b => negb (Boss.defeated b)) (getBosses st).

(** *** Sequences of operations *)

(** The state-changing methods as commands. *)
Inductive Op : Type :=
| StartNewGame (options : option Options)
| LoadGame (saveData : SaveData)
| SaveGame (now : Z)
| StartBossEncounter (boss : BossArg)
| StartEncounter (encounter : Encounter.t)
| DamageBoss (damage : Z)
| DefeatBoss
| AddCardToHand (playerId : string) (card : Card.t)
| PlayCard (playerId : string) (card : Card.t) (zone : Zone.t)
| AddToInventory (item : Item.t) (now : nat) (suffix : string)
| AddQuest (quest : Quest.t) (now : nat) (suffix : string)
| UpdateQuestProgress (questId : string) (progress : Z)
| ChangeLocation (newLocation : string)
| UpdateSettings (settings : gmap string Prim)
| ResetGame.

Definition step (op : Op) (st : t) : outcome t :=
  match op with
  | StartNewGame options => Returned (startNewGame options st)
  | LoadGame saveData => loadGame saveData st
  | SaveGame now => Returned (snd (saveGame now st))
  | StartBossEncounter boss => startBossEncounter boss st
  | StartEncounter encounter => Returned (startEncounter encounter st)
  | DamageBoss damage => damageBoss damage st
  | DefeatBoss => defeatBoss st
  | AddCardToHand playerId card => Returned (addCardToHand playerId card st)
  | PlayCard playerId card zone => Returned (playCard playerId card zone st)
  | AddToInventory item now suffix => Returned (addToInventory item now suffix st)
  | AddQuest quest now suffix => Returned (addQuest quest now suffix st)
  | UpdateQuestProgress questId progress =>
      Returned (updateQuestProgress questId progress st)
  | ChangeLocation newLocation => Returned (changeLocation newLocation st)
  | UpdateSettings settings => Returned (updateSettings settings st)
  | ResetGame => Returned (resetGame st)
  end.

(** Running commands in order; a thrown error ends the run. *)
Fixpoint run (ops : list Op) (st : t) : outcome t :=
  match ops with
  | [] => Returned st
  | op :: rest =>
      match step op st with
      | Returned st' => run rest st'
      | Thrown e => Thrown e
      | OutOfFuel => OutOfFuel
      end
  end.

(** *** Vocabulary of the properties *)

(** The calls made to [callback], in order. *)
Definition callsTo (callback : Callback) (cs : list Call) : list Call :=
  List.filter (fun c => Nat.eqb (callee c) callback) cs.

(** The operations that go through [updateState]; the other three
    assign [this.state] directly or leave it alone. *)
Definition viaUpdateState (op : Op) : bool :=
  match op with
  | LoadGame _ | SaveGame _ | ResetGame => false
  | _ => true
  end.

(** The [type] of the change that an operation announces once it is
    done; [damageBoss] announces one of two. *)
Definition typedEvents (op : Op) : list string :=
  match op with
  | StartNewGame _ => ["game_started"]
  | LoadGame _ => ["game_loaded"]
  | SaveGame _ => ["game_saved"]
  | StartBossEncounter _ => ["boss_encounter_started"]
  | StartEncounter _ => ["encounter_started"]
  | DamageBoss _ => ["boss_damaged"; "boss_defeated"]
  | DefeatBoss => ["boss_defeated"]
  | AddCardToHand _ _ => ["card_added_to_hand"]
  | PlayCard _ _ _ => ["card_played"]
  | AddToInventory _ _ _ => ["item_added_to_inventory"]
  | AddQuest _ _ _ => ["quest_added"]
  | UpdateQuestProgress _ _ => ["quest_progress_updated"]
  | ChangeLocation _ => ["location_changed"]
  | UpdateSettings _ => ["settings_updated"]
  | ResetGame => ["game_reset"]
  end.

(** Number of entries of a zone that carry the card id [i]. *)
Definition countId (i : string) (cards : list Card.t) : nat :=
  List.length (List.filter (fun c => String.eqb (Card.id c) i) cards).


(** Every catalog boss was allocated before the next free location. *)
Definition catalogAllocated (st : t) : Prop :=
  Forall (fun l => (l < next st)%nat) (bosses (gameData st)).



(** The catalog after [defeatBoss] has looked up [i]: the first boss
    with that id is flagged. *)
Fixpoint markFirst (i : string) (bs : list Boss.t) : list Boss.t :=
  match bs with
  | [] => []
  | b :: rest =>
      if String.eqb (Boss.id b) i then Boss.set_defeated true b :: rest
      else b :: markFirst i rest
  end.

Definition markAll (ids : list string) (bs : list Boss.t) : list Boss.t :=
  fold_left (fun acc i => markFirst i acc) ids bs.

(** *** Sample data *)

Definition bolt : Card.t :=
  Card.mk "c1" "Lightning Bolt" "{R}" "Instant" "Lightning Bolt deals 3 damage to any target.".

(** A game in which the player has put [bolt] on the battlefield and
    then received a card with the same id again. *)
Definition boltDrawnTwice : t :=
  addCardToHand "player-1" bolt
    (playCard "player-1" bolt Zone.battlefield
       (addCardToHand "player-1" bolt (startNewGame None create))).

(** A fresh store with one subscriber. *)
Definition watched : t := subscribe 7%nat create.

(** The player of [boltDrawnTwice]. *)
Definition boltHolder : Player.t :=
  with_hand [bolt]
    (setZone Zone.battlefield [bolt]
       (with_identity "player-1" "Player 1" defaultPlayer)).

(** A new game in which the second catalog boss has been met; its copy
    is the object at location 3. *)
Definition facingMalachar : t :=
  match startBossEncounter (BossId "malachar-corrupted") (startNewGame None create) with
  | Returned st => st
  | _ => create
  end.





End Store.

(** ** The template generator, continued: defaults, composite builders *)

Module Composite.
Import Generator.

(** The pools registered by [initializeDefaultGenerators] and
    [initializeExtendedGenerators], in source order; each is registered
    with [weight: 1]. *)
Definition defaultGenerators : list (string * list string) :=
  [
    ("bossEncounter",
      [ "A massive [bossCreature] emerges from the shadows, its [bossAbility] threatening the very fabric of reality!";
        "The planeswalker [bossName] appears in a flash of [manaColor] energy, wielding [bossArtifact]!";
        "An ancient [bossType] awakens, commanding legions of [minionType] creatures!";
        "The corrupted [bossTitle] [bossName] challenges your party with [bossChallenge]!";
        "Reality warps as [bossName] the [bossTitle] manifests with [bossSpecialAbility]!" ]);
    ("bossName",
      [ "Vorthak"; "Malachar"; "Nethys"; "Xandros"; "Vaelthara"; "Grimjaw";
        "Shadowmere"; "Infernus"; "Crystallia"; "Voidheart"; "Tempest"; "Bloodmoon";
        "Nightfall"; "Stormcaller"; "Doomweaver" ]);
    ("bossTitle",
      [ "the Destroyer"; "the Corrupted"; "the Ancient"; "the Eternal";
        "the Void Walker"; "the Soul Reaper"; "the Plane Shatterer"; "the Shadow Lord";
        "the Chaos Bringer"; "the World Ender"; "the Nightmare"; "the Forgotten";
        "the Forbidden" ]);
    ("bossCreature",
      [ "Elder Dragon"; "Cosmic Horror"; "Primordial Titan"; "Demon Lord";
        "Angel of Destruction"; "Eldrazi Spawn"; "Phoenix Eternal"; "Hydra Ancient";
        "Leviathan"; "Wurm Colossal"; "Vampire Progenitor" ]);
    ("randomEncounter",
      [ "You discover [encounterLocation] where [encounterEvent] awaits!";
        "A [encounterCreature] blocks your path, demanding [encounterDemand]!";
        "The party stumbles upon [encounterTreasure] guarded by [encounterGuardian]!";
        "Strange [encounterMagic] fills the air as [encounterNPC] approaches!";
        "A [encounterTrap] triggers, but reveals [encounterReward] beyond!" ]);
    ("encounterLocation",
      [ "an abandoned wizard's tower"; "a crystalline cave"; "floating ruins";
        "a portal nexus"; "an ancient battlefield"; "a magical oasis";
        "a haunted grove"; "planar rifts"; "a temporal anomaly"; "an elemental shrine";
        "a forgotten library" ]);
    ("manaColor",
      [ "white"; "blue"; "black"; "red"; "green"; "colorless"; "multicolored";
        "prismatic" ]);
    ("bossAbility",
      [ "Reality Rift"; "Chaos Storm"; "Void Manipulation"; "Time Fracture";
        "Mana Drain"; "Planar Summon"; "Elemental Fury"; "Soul Harvest";
        "Dimensional Tear"; "Energy Overload"; "Mind Control"; "Death Aura";
        "Lightning Storm"; "Fire Nova"; "Ice Prison"; "Earthquake"; "Spell Reflection";
        "Magic Immunity"; "Phase Shift"; "Berserker Rage" ]);
    ("treasure",
      [ "[treasureType] of [treasureQuality]"; "Ancient [artifactType]";
        "[gemType] infused with [manaColor] mana"; "Scroll of [spellType]";
        "[weaponType] forged by [creatorType]" ]);
    ("questObjective",
      [ "Retrieve the [questItem] from [questLocation]";
        "Defeat [questTarget] before [questTimeLimit]";
        "Protect [questNPC] during [questEvent]";
        "Collect [questQuantity] [questResource] for [questReason]";
        "Investigate [questMystery] in [questLocation]" ]);
    ("customCardName",
      [ "[cardAdjective] [cardNoun]"; "[cardNoun] of [cardQuality]";
        "[cardVerb]ing [cardNoun]"; "The [cardTitle] [cardNoun]" ]);
    ("cardAdjective",
      [ "Mystic"; "Ancient"; "Corrupted"; "Divine"; "Shadowy"; "Burning"; "Frozen";
        "Ethereal" ]);
    ("cardNoun",
      [ "Blade"; "Crystal"; "Spirit"; "Guardian"; "Scholar"; "Beast"; "Phoenix";
        "Dragon" ]);
    ("cardQuality",
      [ "Power"; "Wisdom"; "Destruction"; "Creation"; "the Void"; "Light"; "Darkness" ]);
    ("weatherEffect",
      [ "mystical fog"; "temporal storms"; "mana rain"; "void winds"; "crystal snow" ]);
    ("npcPersonality",
      [ "wise but cryptic"; "aggressive and territorial"; "friendly but cautious";
        "mysterious and aloof" ]);
    ("magicalEffect",
      [ "reality bends"; "time slows"; "mana crystallizes"; "spirits manifest";
        "elements dance" ]);
    ("dungeonHazard",
      [ "shifting walls"; "mana traps"; "illusion chambers"; "time loops";
        "elemental storms" ]);
    ("rewardType",
      [ "rare artifact"; "spell knowledge"; "mana crystals"; "planeswalker spark";
        "ancient wisdom" ])
  ].

(** [new PerchanceGenerator()] *)
Definition create : t :=
  fold_left (fun st entry => addGenerator (fst entry) (mkInput (Some 1) (Some (snd entry))) st)
            defaultGenerators empty.

(** [clearHistory()] *)
Definition clearHistory (st : t) : t := mkGen (generators st) [] (drawn st).

(** The entry that [addGenerator] stores for the object it is given. *)
Definition stored (g : GeneratorInput) : GeneratorEntry :=
  mkEntry (default 1 (in_weight g)) (default [] (in_items g)).

(** The generator object as [addGenerator] reads it back. *)
Definition asInput (e : GeneratorEntry) : GeneratorInput :=
  mkInput (Some (weight e)) (Some (items e)).

(** [exportGenerators()]: the own enumerable properties of the object
    that the loop fills.  The assignment [exported[name] = generator]
    for the name [__proto__] sets the prototype of the object instead
    of creating a property. *)
Definition exportGenerators (st : t) : gmap string GeneratorInput :=
  asInput <$> delete "__proto__" (generators st).

(** [importGenerators(generators)], over the own enumerable properties
    of its argument. *)
Definition importGenerators (gs : gmap string GeneratorInput) (st : t) : t :=
  map_fold (fun name g acc => addGenerator name g acc) st gs.

(** The placeholder names that the loop of [processNestedGenerators]
    meets in [text] from [lastIndex] on when it replaces nothing, at
    most [budget] of them. *)
Fixpoint placeholdersFrom (budget : nat) (text : string) (lastIndex : nat) : list string :=
  match budget with
  | O => []
  | S budget' =>
      match regex_exec text lastIndex with
      | None => []
      | Some m => m_name m :: placeholdersFrom budget' text (m_lastIndex m)
      end
  end.

(** [count] copies of [s], concatenated. *)
Fixpoint copies (count : nat) (s : string) : string :=
  match count with
  | O => EmptyString
  | S k => s +:+ copies k s
  end.

(** All lists present, concatenated. *)
Fixpoint collect (l : list (option (list string))) : option (list string) :=
  match l with
  | [] => Some []
  | o :: l' =>
      match o, collect l' with
      | Some xs, Some ys => Some (xs ++ ys)
      | _, _ => None
      end
  end.

(** Every string that the loop of [processNestedGenerators] can leave,
    over all random values, on the table [G]; [results name] lists what
    the nested call for [name] can return, and is [None] when that call
    may not return. *)
Fixpoint loopResults (G : gmap string GeneratorEntry)
    (results : string -> option (list string))
    (budget : nat) (text : string) (lastIndex : nat) : option (list string) :=
  match regex_exec text lastIndex with
  | None => Some [text]
  | Some m =>
      match budget with
      | O => Some [text]
      | S budget' =>
          match G !! m_name m with
          | Some _ =>
              match results (m_name m) with
              | Some rs =>
                  collect
                    (map (fun r => loopResults G results budget'
                                     (replace text (m_text m) r) 0) rs)
              | None => None
              end
          | None => loopResults G results budget' text (m_lastIndex m)
          end
      end
  end.

(** Every string that [generate(name)] can return on the table [G]
    within [fuel] nested calls, over all random values; [None] when the
    call may throw or need a deeper nesting. *)
Fixpoint possibleResults (G : gmap string GeneratorEntry) (fuel : nat) (name : string)
    : option (list string) :=
  match fuel with
  | O => None
  | S fuel' =>
      match G !! name with
      | None => None
      | Some generator =>
          collect
            (map (fun item => loopResults G (possibleResults G fuel') maxIterations item 0)
                 (match items generator with
                  | [] => ["Empty generator"]
                  | its => its
                  end))
      end
  end.

(** Whether [generate(name)] on the default tables is sure to return
    within two nested calls. *)
Definition checked (name : string) : bool :=
  match possibleResults (generators create) 2 name with
  | Some _ => true
  | None => false
  end.

(** [a < b] on numbers. *)
Definition ltQ (a b : Q) : bool := negb (Qle_bool b a).

(** Generated content records. *)
Record BossRec : Type := mkBossRec {
  boss_name : string;
  boss_title : string;
  boss_description : string;
  boss_health : Z;
  boss_abilities : list string;
  boss_weakness : string;
  boss_loot : list string
}.

Record QuestRec : Type := mkQuestRec {
  quest_title : string;
  quest_objective : string;
  quest_description : string;
  quest_difficulty : Z;
  quest_timeLimit : option Z;
  quest_rewards : list string
}.

Record CardRec : Type := mkCardRec {
  card_name : string;
  card_type : string;
  card_cost : Z;
  card_description : string;
  card_flavor : string;
  card_power : option Z;
  card_toughness : option Z
}.

Section WithOracles.

Variable random : nat -> unitQ.
Variable dateNow : nat -> Z.

(** Computations on the instance that may throw. *)
Definition M (A : Type) : Type := t -> outcome (A * t).

Definition ret {A : Type} (a : A) : M A := fun st => Returned (a, st).

Definition bind {A B : Type} (c : M A) (k : A -> M B) : M B :=
  fun st =>
    match c st with
    | Returned (a, st') => k a st'
    | Thrown e => Thrown e
    | OutOfFuel => OutOfFuel
    end.

Notation "'let*' x ':=' c 'in' k" := (bind c (fun x => k))
  (at level 10, x name, c at level 100, k at level 200).

(** The computation returns on every instance whose table is [G], and
    leaves that table in place. *)
Definition returnsOn {A : Type} (G : gmap string GeneratorEntry) (c : M A) : Prop :=
  forall st, generators st = G ->
    exists a st', c st = Returned (a, st') /\ generators st' = G.

(** [Math.random()] *)
Definition mathRandom : M unitQ :=
  fun st => Returned (random (drawn st), mkGen (generators st) (history st) (S (drawn st))).

(** [Math.floor(Math.random() * n) + k] *)
Definition randomInt (n : nat) (k : Z) : M Z :=
  let* r := mathRandom in ret (Z.of_nat (floorRandom r n) + k).

(** [this.selectRandomItem(items)] *)
Definition pick (its : list string) : M string :=
  fun st => Returned (selectRandomItem random its st).

(** [this.generate(name)], a top-level call at call depth [fuel]. *)
Definition gen (fuel : nat) (name : string) : M string :=
  generate random dateNow fuel name true.

(** [generateCompleteEncounter()]; the properties of the object literal
    are evaluated in source order. *)
Definition generateCompleteEncounter (fuel : nat) : M Store.Encounter.t :=
  let* title := gen fuel "randomEncounter" in
  let* location := gen fuel "encounterLocation" in
  let* weather := gen fuel "weatherEffect" in
  let* difficulty := randomInt 5 1 in
  let* reward1 := gen fuel "treasure" in
  let* reward2 := gen fuel "rewardType" in
  let* r := mathRandom in
  let* special := (if ltQ r 0.3
                   then let* s := gen fuel "magicalEffect" in ret (Some s)
                   else ret None) in
  ret (Store.Encounter.mk title location weather difficulty [reward1; reward2] special).

(** [generateBossEncounter()] *)
Definition generateBossEncounter (fuel : nat) : M BossRec :=
  let* name := gen fuel "bossName" in
  let* title := gen fuel "bossTitle" in
  let* description := gen fuel "bossEncounter" in
  let* health := randomInt 50 100 in
  let* ability1 := gen fuel "magicalEffect" in
  let* ability2 := gen fuel "dungeonHazard" in
  let* weakness := gen fuel "manaColor" in
  let* loot1 := gen fuel "treasure" in
  let* loot2 := gen fuel "rewardType" in
  let* loot3 := gen fuel "customCardName" in
  ret (mkBossRec name title description health [ability1; ability2] weakness
                 [loot1; loot2; loot3]).

(** [generateQuest()] *)
Definition generateQuest (fuel : nat) : M QuestRec :=
  let* quality := gen fuel "cardQuality" in
  let* objective := gen fuel "questObjective" in
  let* description := gen fuel "randomEncounter" in
  let* difficulty := randomInt 5 1 in
  let* r := mathRandom in
  let* timeLimit := (if ltQ r 0.4
                     then let* n := randomInt 10 5 in ret (Some n)
                     else ret None) in
  let* reward1 := gen fuel "treasure" in
  let* reward2 := gen fuel "rewardType" in
  ret (mkQuestRec ("The " +:+ quality +:+ " Quest") objective description difficulty
                  timeLimit [reward1; reward2]).

(** [generateCustomCard()] *)
Definition generateCustomCard (fuel : nat) : M CardRec :=
  let* name := gen fuel "customCardName" in
  let* type := pick ["Creature"; "Instant"; "Sorcery"; "Artifact"; "Enchantment"] in
  let* cost := randomInt 8 1 in
  let* effect := gen fuel "magicalEffect" in
  let* reward := gen fuel "rewardType" in
  let* flavor := gen fuel "randomEncounter" in
  if String.eqb type "Creature" then
    let* power := randomInt 8 1 in
    let* toughness := randomInt 8 1 in
    ret (mkCardRec name type cost (effect +:+ " and " +:+ reward) flavor
                   (Some power) (Some toughness))
  else
    ret (mkCardRec name type cost (effect +:+ " and " +:+ reward) flavor None None).

End WithOracles.

End Composite.

(** ** The AI content layer, continued: derived content and the story log *)

Module Narrative.
Import AI.

(** [a < b] on numbers. *)
Definition lt (a b : Q) : bool := negb (Qle_bool b a).

(** [scaleDifficulty(baseDifficulty, personality)] *)
Definition scaleDifficulty (baseDifficulty : Z) (p : Personality) : Z :=
  let scaled :=
    if gt (danger p) 0.7 then baseDifficulty + 1
    else if lt (danger p) 0.4 then baseDifficulty - 1
    else baseDifficulty in
  Z.max 1 (Z.min 5 scaled).

Record Mechanic : Type := mkMechanic {
  mech_name : string;
  mech_effect : string;
  mech_trigger : string
}.

Definition specialMechanics : list Mechanic :=
  [ mkMechanic "Time Distortion" "Turn order reverses randomly" "combat";
    mkMechanic "Mana Cascade" "Spells cost 1 less but have random effects" "spell_cast";
    mkMechanic "Reality Shift" "Creatures swap controller each turn" "turn_start";
    mkMechanic "Chaos Multiplication" "All numerical values doubled" "always";
    mkMechanic "Planar Resonance" "Cards in graveyard can be cast" "main_phase" ].

Definition highStakes : Mechanic :=
  mkMechanic "High Stakes"
    "Winning grants double rewards, losing has severe consequences" "always".

(** [generateSpecialMechanics(personality)]; [r] is the value of
    [Math.random()] if it is called.  An array element out of range
    would be pushed as [undefined], here [None]. *)
Definition generateSpecialMechanics (p : Personality) (r : unitQ) : list (option Mechanic) :=
  (if gt (creativity p) 0.7
   then [specialMechanics !! floorRandom r (List.length specialMechanics)]
   else [])
  ++ (if gt (danger p) 0.8 then [Some highStakes] else []).

Record Environment : Type := mkEnvironment {
  env_name : string;
  env_effect : string;
  env_visual : string
}.

Definition environments : list Environment :=
  [ mkEnvironment "Unstable Mana Field" "All players draw an extra card each turn"
      "Shimmering magical auras";
    mkEnvironment "Temporal Anomaly" "Players may take two actions per turn"
      "Time appears to move in slow motion";
    mkEnvironment "Chaos Vortex" "Random card effects trigger spontaneously"
      "Swirling multicolored energy";
    mkEnvironment "Planar Convergence" "All colors of mana available"
      "Multiple planes visible in the sky" ].

(** [generateEnvironment(baseEncounter, personality)]; [r1] is the value
    compared with the creativity, [r2] the one that picks the entry.
    [None] is [null]. *)
Definition generateEnvironment (p : Personality) (r1 r2 : unitQ) : option Environment :=
  if lt r1 (creativity p)
  then environments !! floorRandom r2 (List.length environments)
  else None.

Record Objective : Type := mkObjective {
  obj_description : string;
  obj_completed : bool;
  obj_primary : bool;
  obj_bonus : option string
}.

(** [generateDynamicObjectives(baseQuest, personality)], from the
    objective of the base quest. *)
Definition generateDynamicObjectives (objective : string) (p : Personality) : list Objective :=
  [mkObjective objective false true None]
  ++ (if gt (creativity p) 0.6
      then [mkObjective "Complete the quest without losing any creatures" false false
              (Some "Extra rare card reward")]
      else [])
  ++ (if gt (danger p) 0.7
      then [mkObjective "Complete within 10 turns" false false (Some "Legendary artifact")]
      else []).

Record Suggestion : Type := mkSuggestion {
  action : string;
  sug_description : string;
  priority : string
}.

(** The object passed to [generatePlayerSuggestion]; a property that is
    missing reads as [undefined]. *)
Record Situation : Type := mkSituation {
  bossHealth : option Z;
  playerHealth : option Z;
  handSize : option Z
}.

(** [v < n] for a property that may be [undefined]. *)
Definition below (v : option Z) (n : Z) : bool :=
  match v with
  | Some x => x <? n
  | None => false
  end.

(** [n < v] for a property that may be [undefined]. *)
Definition above (v : option Z) (n : Z) : bool :=
  match v with
  | Some x => n <? x
  | None => false
  end.

(** [personality.danger > 0.7] for the value of [getPersonality()]: a
    function inherited from [Object.prototype] has no [danger], and
    reading a property of [undefined] throws. *)
Definition dangerous (v : Property) : outcome bool :=
  match v with
  | Own p => Returned (gt (danger p) 0.7)
  | Inherited _ => Returned false
  | Undefined => Thrown "Cannot read properties of undefined (reading 'danger')"
  end.

(** [generatePlayerSuggestion(gameState)] *)
Definition generatePlayerSuggestion (gs : Situation) (ai : t) : outcome (list Suggestion) :=
  let personality := getPersonality ai in
  let s1 :=
    match bossHealth gs with
    | Some h =>
        if negb (h =? 0) && (h <? 30)
        then [mkSuggestion "aggressive" "The boss is weakening. Press the attack!" "high"]
        else []
    | None => []
    end in
  let s3 :=
    if above (handSize gs) 7
    then [mkSuggestion "card_management"
            "Consider discarding or playing cards to avoid losing them" "medium"]
    else [] in
  if below (playerHealth gs) 10 then
    match dangerous personality with
    | Returned true =>
        Returned (s1 ++ [mkSuggestion "risky" "Go all-in! High risk, high reward!" "medium"]
                     ++ s3)
    | Returned false =>
        Returned (s1 ++ [mkSuggestion "defensive" "Focus on survival and healing" "high"]
                     ++ s3)
    | Thrown e => Thrown e
    | OutOfFuel => OutOfFuel
    end
  else Returned (s1 ++ s3).

(** One entry of [storyContext.majorEvents], for events of type [E]. *)
Record StoryEvent (E : Type) : Type := mkStoryEvent {
  se_timestamp : Z;
  se_event : E;
  se_personality : string
}.
Arguments mkStoryEvent {E} se_timestamp se_event se_personality.
Arguments se_timestamp {E} s.
Arguments se_event {E} s.
Arguments se_personality {E} s.

(** [recordStoryEvent(event)] on the array [majorEvents]: push, then
    [shift()] once if more than 50 entries are held.  [now] is the
    value of [Date.now()]. *)
Definition recordStoryEvent {E : Type} (now : Z) (event : E) (personality : string)
    (majorEvents : list (StoryEvent E)) : list (StoryEvent E) :=
  let pushed := majorEvents ++ [mkStoryEvent now event personality] in
  if (50 <? List.length pushed)%nat then tail pushed else pushed.

(** Recording a sequence of events, oldest first. *)
Definition recordAll {E : Type} (events : list (StoryEvent E))
    (majorEvents : list (StoryEvent E)) : list (StoryEvent E) :=
  fold_left (fun log e => recordStoryEvent (se_timestamp e) (se_event e) (se_personality e) log)
            events majorEvents.

(** [majorEvents.slice(-10)], the [recentEvents] of [getStoryContext()]. *)
Definition recentEvents {E : Type} (majorEvents : list (StoryEvent E)) : list (StoryEvent E) :=
  drop (List.length majorEvents - 10) majorEvents.

End Narrative.

(** ** The game state store, continued: statistics and invariants *)

Module Stats.
Import Store.

Record GameStats : Type := mkGameStats {
  turnCount : Z;
  bossesDefeated : nat;
  totalBosses : nat;
  activeQuests : nat;
  completedQuests : nat;
  inventorySize : nat;
  playersCount : nat;
  statsPhase : string;
  statsLocation : option string
}.

Definition hasStatus (status : string) (q : Quest.t) : bool :=
  match Quest.status q with
  | Some s => String.eqb s status
  | None => false
  end.

(** [getGameStats()] *)
Definition getGameStats (st : t) : GameStats :=
  mkGameStats
    (currentTurn (state st))
    (List.length (defeatedBosses (state st)))
    (List.length (bosses (gameData st)))
    (List.length (List.filter (hasStatus "active") (quests (state st))))
    (List.length (List.filter (hasStatus "completed") (quests (state st))))
    (List.length (inventory (state st)))
    (List.length (players (state st)))
    (gamePhase (state st))
    (location (state st)).

(** The rule by which [updateQuestProgress] sets the status, as a
    property of a stored quest. *)
Definition questConsistent (q : Quest.t) : Prop :=
  exists progress,
    Quest.progress q = Some progress /\
    Quest.status q = Some (if 100 <=? progress then "completed" else "active").

(** The phases that the operations assign. *)
Definition assignedPhases : list string :=
  ["menu"; "playing"; "encounter"; "boss"; "victory"].

Definition isLoadGame (op : Op) : bool :=
  match op with
  | LoadGame _ => true
  | _ => false
  end.

Definition isUpdateSettings (op : Op) : bool :=
  match op with
  | UpdateSettings _ => true
  | _ => false
  end.

(** The id that [startNewGame] gives to the player at index [i]. *)
Definition playerId (i : nat) : string := "player-" +:+ decimal (i + 1).

(** The phase agrees with what is current: a boss is current exactly in
    phase [boss], an encounter exactly in phase [encounter], and the
    phase is one of those the operations assign. *)
Definition coherent (s : State) : Prop :=
  (currentBoss s <> None <-> gamePhase s = "boss") /\
  (currentEncounter s <> None <-> gamePhase s = "encounter") /\
  In (gamePhase s) assignedPhases.

(** Updates of one key. *)
Definition only_quests (qs : list Quest.t) : Updates :=
  mkUpdates None None None None None None None (Some qs) None None.

Definition only_players (ps : list Player.t) : Updates :=
  mkUpdates None None (Some ps) None None None None None None None.

Definition notLoadGame (op : Op) : bool := negb (isLoadGame op).

Definition keepsSettings (op : Op) : bool :=
  negb (isLoadGame op) && negb (isUpdateSettings op).

(** A quest as a caller hands it to [addQuest]. *)
Definition relicQuest : Quest.t :=
  Quest.mk None "The Power Quest" "Retrieve the relic" None None ["mana crystals"].

Definition ambush : Encounter.t :=
  Encounter.mk "Ambush" "a haunted grove" "mystical fog" 3 ["rare artifact"] None.

(** A session that adds a quest, advances it, meets an encounter and a
    boss, and damages the boss. *)
Definition session : list Op :=
  [ StartNewGame None;
    AddQuest relicQuest 1700 "k3j9x0q1z";
    UpdateQuestProgress "quest-1700-k3j9x0q1z" 100;
    StartEncounter ambush;
    StartBossEncounter (BossId "nethys-ancient");
    DamageBoss 50;
    ChangeLocation "The Temporal Sanctum" ].

Definition afterSession : t :=
  match run session create with
  | Returned st => st
  | _ => create
  end.

(** The store before the boss of [session] is met, when it is met, and
    after the damage. *)
Definition beforeBoss : t :=
  match run (firstn 4 session) create with
  | Returned st => st
  | _ => create
  end.

Definition facingNethys : t :=
  match run (firstn 5 session) create with
  | Returned st => st
  | _ => create
  end.

Definition woundedNethys : t :=
  match run (firstn 6 session) create with
  | Returned st => st
  | _ => create
  end.

End Stats.

(** ** Presentation helpers of class [MTGChaosRPG] *)

Module Presentation.

(** [formatManaCost(manaCost)]: a falsy argument, the empty string
    included, gives the empty string; otherwise every brace is removed. *)
Fixpoint stripBraces (s : string) : string :=
  match s with
  | EmptyString => EmptyString
  | String c rest =>
      if Ascii.eqb c "{" || Ascii.eqb c "}" then stripBraces rest
      else String c (stripBraces rest)
  end.

Definition formatManaCost (manaCost : option string) : string :=
  match manaCost with
  | None => ""
  | Some s => stripBraces s
  end.

(** [truncateText(text, maxLength)]; [substring] reads a negative end
    as 0. *)
Definition truncateText (text : string) (maxLength : Z) : string :=
  if Z.of_nat (String.length text) <=? maxLength then text
  else substring 0 (Z.to_nat (maxLength - 3)) text +:+ "...".

End Presentation.

(** ** Sample oracles, instances and runs *)

Module Samples.
Import Generator Composite.

Definition zero : unitQ := UnitQ 0 eq_refl.

Definition half : unitQ := UnitQ 0.5 eq_refl.

(** An oracle that answers 0 and 0.5 in turn. *)
Definition alternating (k : nat) : unitQ := if Nat.even k then zero else half.

Definition clock (k : nat) : Z := 1700000000000 + Z.of_nat k.

(** What a computation returned, or [fallback]. *)
Definition returned {A : Type} (fallback : A) (o : outcome A) : A :=
  match o with
  | Returned a => a
  | _ => fallback
  end.

(** [generate('customCardName')] on a new instance. *)
Definition cardNameRun : string * t :=
  returned (EmptyString, create)
           (generate alternating clock 3 "customCardName" true create).

(** An instance with a one-item pool [a] and a pool [row] whose item
    holds twelve references to it. *)
Definition twelve : t :=
  addGenerator "row" (mkInput None (Some [copies 12 "[a]"]))
    (addGenerator "a" (mkInput None (Some ["x"])) empty).

Definition encounterRun : Store.Encounter.t * t :=
  returned (Store.Encounter.mk "" "" "" 0 [] None, create)
           (generateCompleteEncounter alternating clock 3 create).

Definition bossRun : BossRec * t :=
  returned (mkBossRec "" "" "" 0 [] "" [], create)
           (generateBossEncounter alternating clock 3 create).

Definition questRun : QuestRec * t :=
  returned (mkQuestRec "" "" "" 0 None [], create)
           (generateQuest alternating clock 3 create).

Definition cardRun : CardRec * t :=
  returned (mkCardRec "" "" 0 "" "" None None, create)
           (generateCustomCard alternating clock 3 create).

End Samples.

(** * Properties *)

(** ** Arithmetic of the random oracle *)

(** [Math.floor(Math.random() * n)] is an index below [n]. *)
Lemma floorRandom_lt (r : unitQ) (n : nat) : (0 < n)%nat -> (floorRandom r n < n)%nat.
Proof.
  intros Hn. unfold floorRandom.
  destruct r as [q Hq]; cbn [uq_val].
  unfold in_unit_interval in Hq.
  apply andb_prop in Hq as [H0 H1].
  apply Qle_bool_iff in H0.
  apply negb_true_iff in H1.
  assert (Hlt : (q < 1)%Q).
  { apply Qnot_le_lt. intros Hle. apply Qle_bool_iff in Hle. congruence. }
  set (z := Z.of_nat n).
  assert (Hz : (0 < z)%Z) by (subst z; lia).
  assert (Hnn : (0 <= Qfloor (q * inject_Z z))%Z).
  { change 0%Z with (Qfloor (inject_Z 0)). apply Qfloor_resp_le.
    change (inject_Z 0) with 0%Q.
    apply Qmult_le_0_compat; [exact H0|].
    change 0%Q with (inject_Z 0). rewrite <- Zle_Qle. lia. }
  assert (Hup : (Qfloor (q * inject_Z z) < z)%Z).
  { apply Z.lt_nge. intros Hge.
    assert (Hq2 : (inject_Z z <= q * inject_Z z)%Q).
    { eapply Qle_trans; [|apply Qfloor_le]. rewrite <- Zle_Qle. exact Hge. }
    assert (Hq3 : (q * inject_Z z < 1 * inject_Z z)%Q).
    { apply Qmult_lt_compat_r; [|exact Hlt].
      change 0%Q with (inject_Z 0). rewrite <- Zlt_Qlt. exact Hz. }
    rewrite Qmult_1_l in Hq3.
    exact (Qlt_not_le _ _ Hq3 Hq2). }
  subst z. lia.
Qed.

Lemma floorRandom_one (r : unitQ) : floorRandom r 1 = O.
Proof. pose proof (floorRandom_lt r 1). lia. Qed.

(** ** Template generator *)

Module GeneratorProps.
Import Generator.

Section Expansion.

Variable random : nat -> unitQ.
Variable dateNow : nat -> Z.

Lemma exec_self : regex_exec "[self]" 0 = Some (mkMatch 0 "[self]" "self" 6).
Proof. reflexivity. Qed.

(** With a single item, [selectRandomItem] returns it whatever the
    oracle says. *)
Lemma selectRandomItem_single (item : string) (st : t) :
  selectRandomItem random [item] st
  = (item, mkGen (generators st) (history st) (S (drawn st))).
Proof.
  unfold selectRandomItem. cbn [List.length].
  rewrite floorRandom_one. reflexivity.
Qed.

(** One more level of call depth never helps a generator whose only item
    is a reference to itself: every call of [generate] makes another one
    before it can return. *)
Lemma self_reference_diverges (fuel : nat) :
  forall (recordHistory : bool) (st : t) (e : GeneratorEntry),
    generators st !! "self" = Some e ->
    items e = ["[self]"] ->
    generate random dateNow fuel "self" recordHistory st = OutOfFuel.
Proof.
  induction fuel as [|fuel IH]; intros recordHistory st e He Hitems.
  - reflexivity.
  - cbn [generate]. rewrite He, Hitems, selectRandomItem_single.
    unfold processNestedGenerators, maxIterations.
    cbn [nestedLoop]. rewrite exec_self. cbn [m_name generators].
    rewrite He.
    rewrite (IH false _ e); [reflexivity | exact He | exact Hitems].
Qed.

(** The expansion does return where no item holds a placeholder: one
    call suffices, and the result is the sentinel of an empty pool or
    one of the items. *)
Lemma generate_plain (fuel : nat) (name : string) (recordHistory : bool)
    (st : t) (e : GeneratorEntry) :
  generators st !! name = Some e ->
  Forall (fun item => regex_exec item 0 = None) (items e) ->
  exists result st',
    generate random dateNow (S fuel) name recordHistory st = Returned (result, st') /\
    (items e = [] /\ result = "Empty generator" \/ In result (items e)).
Proof.
  intros He Hplain. cbn [generate]. rewrite He.
  destruct (items e) as [|item rest] eqn:Hitems.
  - cbn [selectRandomItem].
    unfold processNestedGenerators, maxIterations. cbn [nestedLoop].
    change (regex_exec "Empty generator" 0) with (@None Match).
    destruct recordHistory; eexists _, _; (split; [reflexivity|]);
      left; split; reflexivity.
  - set (its := item :: rest) in *.
    assert (Hin : In (nth (floorRandom (random (drawn st)) (List.length its)) its "undefined") its).
    { apply nth_In. apply floorRandom_lt. subst its. cbn. lia. }
    assert (Hnone : regex_exec
                      (nth (floorRandom (random (drawn st)) (List.length its)) its "undefined")
                      0 = None).
    { rewrite Forall_forall in Hplain. apply Hplain, list_elem_of_In. exact Hin. }
    unfold selectRandomItem. subst its.
    set (chosen := nth _ (item :: rest) "undefined") in *.
    unfold processNestedGenerators, maxIterations. cbn [nestedLoop].
    rewrite Hnone.
    destruct recordHistory; eexists _, _; (split; [reflexivity|]); right; exact Hin.
Qed.

End Expansion.

(** C1 (as the code behaves).  Register a generator [self] whose only
    item is the template ["[self]"].  Expanding it returns no string at
    any call depth, for every random oracle and every state of the
    instance: the cap of 10 rounds counts the iterations of one call of
    [processNestedGenerators], and each call of [generate] made from
    the loop starts a loop of its own with the count at 0.  In
    JavaScript the recursion ends when the call stack is exhausted. *)
Theorem self_reference_never_returns
    (random : nat -> unitQ) (dateNow : nat -> Z)
    (fuel : nat) (recordHistory : bool) (st : t) :
  generate random dateNow fuel "self" recordHistory
    (addGenerator "self" (mkInput None (Some ["[self]"])) st)
  = OutOfFuel.
Proof.
  eapply self_reference_diverges.
  - unfold addGenerator. cbn [generators]. apply lookup_insert_eq.
  - reflexivity.
Qed.

End GeneratorProps.

(** ** AI content layer *)

Module AIProps.
Import AI.

Lemma assoc_absent (key : string) (table : list (string * Personality)) :
  key ∉ map fst table -> assoc key table = None.
Proof.
  induction table as [|[k p] table IH]; intros Hnot; [reflexivity|].
  cbn [assoc]. destruct (String.eqb_spec k key) as [->|Hne].
  - exfalso. apply Hnot. cbn. left.
  - apply IH. intros Hin. apply Hnot. cbn. right. exact Hin.
Qed.

Lemma existsb_absent (key : string) (keys : list string) :
  key ∉ keys -> existsb (String.eqb key) keys = false.
Proof.
  induction keys as [|k keys IH]; intros Hnot; [reflexivity|].
  cbn [existsb]. destruct (String.eqb_spec key k) as [->|Hne].
  - exfalso. apply Hnot. left.
  - cbn. apply IH. intros Hin. apply Hnot. right. exact Hin.
Qed.

(** A key outside the catalog and outside [Object.prototype] reads as
    [undefined]. *)
Lemma lookup_unknown (key : string) :
  key ∉ catalogKeys -> key ∉ objectPrototypeKeys -> lookup key = Undefined.
Proof.
  intros Hc Hp. unfold lookup.
  rewrite (assoc_absent key personalities Hc).
  rewrite (existsb_absent key objectPrototypeKeys Hp). reflexivity.
Qed.

Lemma bogus_not_in_catalog : "bogus" ∉ catalogKeys.
Proof.
  unfold catalogKeys. cbn. rewrite !elem_of_cons, elem_of_nil.
  intros [H|[H|[H|[H|[]]]]]; discriminate H.
Qed.

Lemma bogus_not_inherited : "bogus" ∉ objectPrototypeKeys.
Proof.
  unfold objectPrototypeKeys. rewrite !elem_of_cons, elem_of_nil.
  intros H. repeat (destruct H as [H|H]; [discriminate H|]). exact H.
Qed.

(** C2 (as stated) fails: with the personality set to [reckless], the
    call [setPersonality('bogus')] does not keep it. *)
Lemma setPersonality_bogus_changes :
  ("bogus" ∉ catalogKeys) /\
  personality (setPersonality "reckless" init) = "reckless" /\
  personality (setPersonality "bogus" (setPersonality "reckless" init))
  <> personality (setPersonality "reckless" init).
Proof.
  split; [exact bogus_not_in_catalog|]. split; [reflexivity|].
  cbn. discriminate.
Qed.

(** A key found only through the prototype chain is accepted as if it
    were a catalog entry. *)
Remark setPersonality_inherited_key :
  ("toString" ∉ catalogKeys) /\
  personality (setPersonality "toString" init) = "toString" /\
  getPersonality (setPersonality "toString" init) = Inherited "toString".
Proof.
  split; [|split; reflexivity].
  unfold catalogKeys. cbn. rewrite !elem_of_cons, elem_of_nil.
  intros [H|[H|[H|[H|[]]]]]; discriminate H.
Qed.

(** C2 (amended).  For a key that is neither one of the four catalog
    entries nor the name of a property inherited from
    [Object.prototype], [setPersonality(key)] sets the current
    personality to [default], whatever it was, and its only other effect
    is one warning on the console. *)
Theorem setPersonality_unknown (key : string) (ai : t) :
  key ∉ catalogKeys ->
  key ∉ objectPrototypeKeys ->
  personality (setPersonality key ai) = "default" /\
  console (setPersonality key ai)
  = console ai ++ [(warn, "Unknown personality: " +:+ key +:+ ", using default")].
Proof.
  intros Hc Hp. unfold setPersonality.
  rewrite (lookup_unknown key Hc Hp). cbn. split; reflexivity.
Qed.

Lemma setPersonality_unknown_witness :
  personality (setPersonality "bogus" (setPersonality "reckless" init)) = "default" /\
  console (setPersonality "bogus" (setPersonality "reckless" init))
  = console (setPersonality "reckless" init)
    ++ [(warn, "Unknown personality: " +:+ "bogus" +:+ ", using default")].
Proof.
  apply (setPersonality_unknown "bogus" (setPersonality "reckless" init)).
  - exact bogus_not_in_catalog.
  - exact bogus_not_inherited.
Defined.

Lemma gt_true (a b : Q) : gt a b = true <-> (b < a)%Q.
Proof.
  unfold gt. rewrite negb_true_iff. split.
  - intros H. apply Qnot_le_lt. intros Hle. apply Qle_bool_iff in Hle. congruence.
  - intros H. destruct (Qle_bool a b) eqn:E; [|reflexivity].
    apply Qle_bool_iff in E. exfalso. exact (Qlt_not_le _ _ H E).
Qed.

Lemma gt_false (a b : Q) : gt a b = false <-> (a <= b)%Q.
Proof.
  unfold gt. rewrite negb_false_iff. apply Qle_bool_iff.
Qed.

(** C10.  [generateQuestGiver] always returns a quest giver.  The list
    filtered by [trustworthy > 0.7] is exactly the three entries
    [trusted], so the index [Math.floor(Math.random() * 3)] is within
    its bounds; when [danger <= 0.7] the result is one of these three,
    and when [danger > 0.7] it is one of the five catalog entries. *)
Theorem generateQuestGiver_defined (p : Personality) (r : unitQ) :
  List.filter (fun qg => gt (trustworthy qg) 0.7) questGivers = trusted /\
  (floorRandom r 3 < List.length trusted)%nat /\
  exists g : QuestGiver,
    generateQuestGiver p r = Some g /\
    match Qlt_le_dec 0.7 (danger p) with
    | left _ => g ∈ questGivers
    | right _ => g ∈ trusted
    end.
Proof.
  split; [reflexivity|]. split; [apply floorRandom_lt; cbn; lia|].
  unfold generateQuestGiver.
  destruct (Qlt_le_dec 0.7 (danger p)) as [Hlt|Hle].
  - apply gt_true in Hlt. rewrite Hlt.
    destruct (lookup_lt_is_Some_2 questGivers (floorRandom r (List.length questGivers)))
      as [g Hg]; [apply floorRandom_lt; cbn; lia|].
    exists g. split; [exact Hg|]. apply list_elem_of_lookup. eauto.
  - apply gt_false in Hle. rewrite Hle.
    change (List.filter (fun qg => gt (trustworthy qg) 0.7) questGivers) with trusted.
    destruct (lookup_lt_is_Some_2 trusted (floorRandom r 3)) as [g Hg];
      [apply floorRandom_lt; cbn; lia|].
    exists g. split; [exact Hg|]. apply list_elem_of_lookup. eauto.
Qed.

End AIProps.

(** ** Game state store *)

Module StoreProps.
Import Store.

(** *** New game *)

(** C9.  [startNewGame] called without options, or with options that
    have no [playerCount], creates exactly one player, with id
    [player-1] and name [Player 1], sets the phase to [playing] and the
    turn to 1. *)
Theorem startNewGame_without_playerCount (arg : option Options) (st : t) :
  arg = None \/ (exists o, arg = Some o /\ playerCount o = None) ->
  (exists p,
      players (state (startNewGame arg st)) = [p] /\
      Player.id p = "player-1" /\ Player.name p = "Player 1") /\
  gamePhase (state (startNewGame arg st)) = "playing" /\
  currentTurn (state (startNewGame arg st)) = 1.
Proof.
  intros [->|[o [-> Ho]]].
  - split; [|split; reflexivity].
    exists (with_identity "player-1" "Player 1" defaultPlayer).
    repeat split.
  - destruct o as [count names]. cbn [playerCount] in Ho. subst count.
    split; [|split; reflexivity].
    exists (with_identity "player-1" "Player 1" defaultPlayer).
    repeat split.
Qed.

Lemma startNewGame_without_playerCount_witness :
  (exists p,
      players (state (startNewGame (Some (mkOptions None (Some ["Amy"]))) create)) = [p] /\
      Player.id p = "player-1" /\ Player.name p = "Player 1") /\
  gamePhase (state (startNewGame (Some (mkOptions None (Some ["Amy"]))) create)) = "playing" /\
  currentTurn (state (startNewGame (Some (mkOptions None (Some ["Amy"]))) create)) = 1.
Proof.
  apply (startNewGame_without_playerCount (Some (mkOptions None (Some ["Amy"]))) create).
  right. exists (mkOptions None (Some ["Amy"])). split; reflexivity.
Defined.

(** *** Reset *)

Lemma resetBoss_idempotent (b : Boss.t) : resetBoss (resetBoss b) = resetBoss b.
Proof. reflexivity. Qed.

(** The loop of [resetGame] resets the catalog objects and no other. *)
Lemma reset_loop (ls : list loc) :
  forall (h : loc -> Boss.t) (l : loc),
    fold_left (fun h l => mutate resetBoss l h) ls h l
    = if bool_decide (l ∈ ls) then resetBoss (h l) else h l.
Proof.
  induction ls as [|a ls IH]; intros h l; cbn [fold_left].
  - rewrite bool_decide_eq_false_2; [reflexivity | apply not_elem_of_nil].
  - rewrite IH. unfold mutate.
    destruct (Nat.eqb_spec l a) as [->|Hne].
    + rewrite (bool_decide_eq_true_2 (a ∈ a :: ls)) by left.
      destruct (bool_decide (a ∈ ls)); [apply resetBoss_idempotent | reflexivity].
    + destruct (decide (l ∈ ls)) as [Hin|Hnin].
      * rewrite !bool_decide_eq_true_2; [reflexivity | by right | exact Hin].
      * rewrite !bool_decide_eq_false_2; [reflexivity | | exact Hnin].
        intros [?|?]%elem_of_cons; contradiction.
Qed.

(** C7.  [resetGame] keeps the settings record as it is, empties the
    players, the inventory, the quests and the defeated list, and leaves
    every catalog boss with [health = maxHealth] (its [maxHealth]
    unchanged) and [defeated = false]. *)
Theorem resetGame_preserves_settings (st : t) :
  gameSettings (state (resetGame st)) = gameSettings (state st) /\
  players (state (resetGame st)) = [] /\
  inventory (state (resetGame st)) = [] /\
  quests (state (resetGame st)) = [] /\
  defeatedBosses (state (resetGame st)) = [] /\
  bosses (gameData (resetGame st)) = bosses (gameData st) /\
  Forall (fun l =>
            Boss.health (heap (resetGame st) l) = Boss.maxHealth (heap (resetGame st) l) /\
            Boss.maxHealth (heap (resetGame st) l) = Boss.maxHealth (heap st l) /\
            Boss.defeated (heap (resetGame st) l) = false)
         (bosses (gameData (resetGame st))).
Proof.
  repeat (split; [reflexivity|]).
  apply Forall_forall. intros l Hl.
  cbn [resetGame notifyObservers heap gameData] in *.
  rewrite reset_loop, bool_decide_eq_true_2 by exact Hl.
  repeat split.
Qed.

(** *** Save and load *)

(** C8.  The record returned by [saveGame], fed to [loadGame] right
    away or in any later state of the store, is accepted and reproduces
    the saved state tree and the saved catalog, whatever the store held
    before the load; in particular [currentTurn] and [location] are the
    saved ones.  The load keeps the subscribers and leaves the boss
    objects as they are when it happens: every boss object that has not
    been mutated since the save is as saved, and all of them are when
    the record is loaded right away. *)
Theorem save_load_roundtrip (now : Z) (st later : t) :
  exists st2,
    loadGame (fst (saveGame now st)) later = Returned st2 /\
    state st2 = state st /\
    gameData st2 = gameData st /\
    currentTurn (state st2) = currentTurn (state st) /\
    location (state st2) = location (state st) /\
    observers st2 = observers later /\
    (forall l, heap later l = heap st l -> heap st2 l = heap st l) /\
    (later = snd (saveGame now st) -> heap st2 = heap st).
Proof.
  eexists. split; [reflexivity|].
  cbn [loadGame saveGame fst snd sd_state sd_gameData notifyObservers
       state gameData observers heap].
  repeat (split; [reflexivity|]). split.
  - intros l Hl. exact Hl.
  - intros ->. reflexivity.
Qed.

(** The record shares its boss objects with the store.  Damage dealt
    between saving and loading is therefore not undone by loading: the
    boss met at 120 health is at 100 after [damageBoss(20)], and still
    at 100 once the earlier record has been loaded. *)
Remark saved_boss_is_shared :
  exists st2,
    run [DamageBoss 20; LoadGame (fst (saveGame 0 facingMalachar))]
        (snd (saveGame 0 facingMalachar)) = Returned st2 /\
    currentBoss (state st2) = Some 3%nat /\
    Boss.health (heap facingMalachar 3%nat) = 120 /\
    Boss.health (heap st2 3%nat) = 100.
Proof. eexists. split; [reflexivity|]. repeat split. Qed.

(** *** Observer notification *)

Lemma callsTo_app (callback : Callback) (xs ys : list Call) :
  callsTo callback (xs ++ ys) = callsTo callback xs ++ callsTo callback ys.
Proof. unfold callsTo. apply List.filter_app. Qed.

(** One notification reaches a callback as often as it is subscribed. *)
Lemma callsTo_notification (callback : Callback) (s : State) (c : Change)
    (obs : list Callback) :
  callsTo callback (map (fun k => mkCall k s c) obs)
  = repeat (mkCall callback s c) (count_occ Nat.eq_dec obs callback).
Proof.
  induction obs as [|k obs IH]; [reflexivity|].
  cbn [map callsTo List.filter callee count_occ].
  fold (callsTo callback (map (fun k => mkCall k s c) obs)). rewrite IH.
  destruct (Nat.eq_dec k callback) as [->|Hne].
  - rewrite Nat.eqb_refl. reflexivity.
  - apply Nat.eqb_neq in Hne. rewrite Hne. reflexivity.
Qed.

Ltac announce :=
  eexists _, _;
  split; [reflexivity|];
  split; [cbn; rewrite <- ?app_assoc; reflexivity|];
  cbn; repeat constructor.

Ltac announce_direct :=
  exists noUpdates; eexists;
  split; [reflexivity|];
  split; [reflexivity|];
  cbn; repeat constructor.

(** What an operation appends to the record of calls: for the
    operations built on [updateState], one [state_update] notification
    and then the notification of the operation's own change; for
    [loadGame], [saveGame] and [resetGame] the latter only.  Both carry
    the state as the operation leaves it. *)
Lemma step_notifications (op : Op) (st st' : t) :
  step op st = Returned st' ->
  exists (updates : Updates) (typed : Change),
    observers st' = observers st /\
    calls st'
    = calls st
      ++ (if viaUpdateState op
          then map (fun k => mkCall k (state st')
                                    (state_update (state st) (state st') updates))
                   (observers st)
          else [])
      ++ map (fun k => mkCall k (state st') typed) (observers st) /\
    changeType typed ∈ typedEvents op.
Proof.
  destruct op; cbn [step]; intros Hstep.
  - injection Hstep as <-. announce.
  - unfold loadGame in Hstep. destruct (sd_state saveData) as [s|]; [|discriminate].
    injection Hstep as <-. announce_direct.
  - injection Hstep as <-. announce_direct.
  - unfold startBossEncounter in Hstep.
    destruct boss as [id|b].
    + destruct (findBoss id st) as [[k l]|]; [|discriminate].
      injection Hstep as <-. announce.
    + injection Hstep as <-. announce.
  - injection Hstep as <-. announce.
  - unfold damageBoss in Hstep.
    destruct (currentBoss (state st)) as [boss|] eqn:Hboss; [|discriminate].
    match type of Hstep with (if ?c then _ else _) = _ => destruct c end.
    + unfold defeatBoss in Hstep. cbn [with_heap state] in Hstep.
      rewrite Hboss in Hstep. injection Hstep as <-.
      destruct (findBoss _ _) as [[k l]|]; announce.
    + injection Hstep as <-. announce.
  - unfold defeatBoss in Hstep.
    destruct (currentBoss (state st)) as [boss|]; [|discriminate].
    injection Hstep as <-.
    destruct (findBoss _ _) as [[k l]|]; announce.
  - injection Hstep as <-. announce.
  - injection Hstep as <-. announce.
  - injection Hstep as <-. announce.
  - injection Hstep as <-. announce.
  - injection Hstep as <-. announce.
  - injection Hstep as <-. announce.
  - injection Hstep as <-. announce.
  - injection Hstep as <-. announce_direct.
Qed.

(** C5 (as stated) fails: one subscriber, one [changeLocation], two
    calls, the first of them with the generic [state_update] change. *)
Lemma changeLocation_calls_twice :
  observers watched = [7%nat] /\
  calls watched = [] /\
  map (fun c => changeType (change c))
      (callsTo 7%nat (calls (changeLocation "Forest" watched)))
  = ["state_update"; "location_changed"] /\
  List.length (callsTo 7%nat (calls (changeLocation "Forest" watched))) <> 1%nat.
Proof.
  split; [reflexivity|]. split; [reflexivity|]. split; [reflexivity|].
  cbn. discriminate.
Qed.

(** C5 (amended).  Every mutating operation that returns calls each
    callback subscribed once exactly twice before it returns, first with
    a [state_update] change holding the previous state, the new state
    and the updates, then with the operation's own typed change;
    [loadGame], [saveGame] and [resetGame] call it exactly once, with
    their typed change.  Each call receives the state as the operation
    leaves it. *)
Theorem observers_notified (op : Op) (st st' : t) (callback : Callback) :
  step op st = Returned st' ->
  count_occ Nat.eq_dec (observers st) callback = 1%nat ->
  exists (updates : Updates) (typed : Change) (made : list Call),
    calls st' = calls st ++ made /\
    changeType typed ∈ typedEvents op /\
    callsTo callback made
    = (if viaUpdateState op
       then [mkCall callback (state st') (state_update (state st) (state st') updates)]
       else [])
      ++ [mkCall callback (state st') typed].
Proof.
  intros Hstep Honce.
  destruct (step_notifications op st st' Hstep) as (updates & typed & _ & Hcalls & Htype).
  exists updates, typed. eexists. split; [exact Hcalls|]. split; [exact Htype|].
  rewrite callsTo_app, callsTo_notification, Honce.
  destruct (viaUpdateState op).
  - rewrite callsTo_notification, Honce. reflexivity.
  - reflexivity.
Qed.

Lemma observers_notified_witness :
  exists (updates : Updates) (typed : Change) (made : list Call),
    calls (changeLocation "Forest" watched) = calls watched ++ made /\
    changeType typed ∈ typedEvents (ChangeLocation "Forest") /\
    callsTo 7%nat made
    = [mkCall 7%nat (state (changeLocation "Forest" watched))
         (state_update (state watched) (state (changeLocation "Forest" watched)) updates)]
      ++ [mkCall 7%nat (state (changeLocation "Forest" watched)) typed].
Proof.
  apply (observers_notified (ChangeLocation "Forest") watched
           (changeLocation "Forest" watched) 7%nat).
  - reflexivity.
  - reflexivity.
Defined.

(** *** Playing a card *)

Lemma lookup_map {A B : Type} (f : A -> B) (l : list A) (i : nat) :
  map f l !! i = option_map f (l !! i).
Proof.
  revert i. induction l as [|a l IH]; intros [|i]; cbn; try reflexivity. apply IH.
Qed.

Lemma countId_removed (i : string) (cards : list Card.t) :
  countId i (List.filter (fun c => negb (String.eqb (Card.id c) i)) cards) = O.
Proof.
  unfold countId. induction cards as [|c cards IH]; [reflexivity|].
  cbn [List.filter]. destruct (String.eqb (Card.id c) i) eqn:E; cbn [negb].
  - exact IH.
  - cbn [List.filter]. rewrite E. exact IH.
Qed.

Lemma countId_appended (card : Card.t) (cards : list Card.t) :
  countId (Card.id card) (cards ++ [card]) = S (countId (Card.id card) cards).
Proof.
  unfold countId. rewrite List.filter_app, List.length_app.
  cbn [List.filter]. rewrite String.eqb_refl. cbn [List.length]. lia.
Qed.

(** The hand and the target zone of the player object that [playCard]
    builds, for a target zone other than the hand. *)
Lemma playCardOn_zones (card : Card.t) (zone : Zone.t) (p : Player.t) :
  zone <> Zone.hand ->
  Player.id (playCardOn card zone p) = Player.id p /\
  Player.hand (playCardOn card zone p)
  = List.filter (fun c => negb (String.eqb (Card.id c) (Card.id card))) (Player.hand p) /\
  getZone zone (playCardOn card zone p) = getZone zone p ++ [card].
Proof.
  intros Hzone. destruct zone; [contradiction| | |]; repeat split.
Qed.

(** C6 (as stated) fails: the player holds [bolt] in hand while a card
    with the same id already lies on the battlefield; after [playCard]
    the battlefield has two entries with that id. *)
Lemma playCard_duplicates :
  exists p p',
    players (state boltDrawnTwice) = [p] /\
    Player.id p = "player-1" /\
    countId "c1" (Player.hand p) = 1%nat /\
    players (state (playCard "player-1" bolt Zone.battlefield boltDrawnTwice)) = [p'] /\
    countId "c1" (Player.battlefield p') = 2%nat /\
    countId "c1" (Player.battlefield p') <> 1%nat.
Proof.
  eexists _, _. split; [reflexivity|]. split; [reflexivity|].
  split; [reflexivity|]. split; [reflexivity|]. split; [reflexivity|].
  cbn. discriminate.
Qed.

(** C6 (amended).  For every player whose id equals [playerId],
    [playCard(playerId, card, zone)] with a target zone other than the
    hand leaves that player, at the same position, with a hand that has
    no entry with the card's id and with the card appended to the target
    zone, which therefore has exactly one more entry with that id than
    before the call: exactly one when it had none. *)
Theorem playCard_moves_card (playerId : string) (card : Card.t) (zone : Zone.t)
    (st : t) (i : nat) (p : Player.t) :
  zone <> Zone.hand ->
  players (state st) !! i = Some p ->
  Player.id p = playerId ->
  exists p',
    players (state (playCard playerId card zone st)) !! i = Some p' /\
    Player.id p' = playerId /\
    countId (Card.id card) (Player.hand p') = O /\
    getZone zone p' = getZone zone p ++ [card] /\
    countId (Card.id card) (getZone zone p')
    = S (countId (Card.id card) (getZone zone p)) /\
    (countId (Card.id card) (getZone zone p) = O ->
     countId (Card.id card) (getZone zone p') = 1%nat).
Proof.
  intros Hzone Hp Hid.
  destruct (playCardOn_zones card zone p Hzone) as (Hid' & Hhand & Htarget).
  exists (playCardOn card zone p).
  split.
  - change (players (state (playCard playerId card zone st)))
      with (map (fun player =>
                   if String.eqb (Player.id player) playerId
                   then playCardOn card zone player
                   else player)
                (players (state st))).
    rewrite lookup_map, Hp. cbn [option_map].
    rewrite <- Hid, String.eqb_refl. reflexivity.
  - split; [congruence|].
    split; [rewrite Hhand; apply countId_removed|].
    split; [exact Htarget|].
    rewrite Htarget, countId_appended.
    split; [reflexivity|]. intros ->. reflexivity.
Qed.

Lemma playCard_moves_card_witness :
  exists p',
    players (state (playCard "player-1" bolt Zone.graveyard boltDrawnTwice)) !! O
    = Some p' /\
    Player.id p' = "player-1" /\
    countId (Card.id bolt) (Player.hand p') = O /\
    getZone Zone.graveyard p' = getZone Zone.graveyard boltHolder ++ [bolt] /\
    countId (Card.id bolt) (getZone Zone.graveyard p')
    = S (countId (Card.id bolt) (getZone Zone.graveyard boltHolder)) /\
    (countId (Card.id bolt) (getZone Zone.graveyard boltHolder) = O ->
     countId (Card.id bolt) (getZone Zone.graveyard p') = 1%nat).
Proof.
  apply (playCard_moves_card "player-1" bolt Zone.graveyard boltDrawnTwice O boltHolder).
  - discriminate.
  - reflexivity.
  - reflexivity.
Defined.

(** *** Damage and defeat *)

(** Flagging a boss touches neither its id nor its health. *)
Lemma mutate_defeated_frame (d : bool) (l x : loc) (h : loc -> Boss.t) :
  Boss.id (mutate (Boss.set_defeated d) l h x) = Boss.id (h x) /\
  Boss.health (mutate (Boss.set_defeated d) l h x) = Boss.health (h x) /\
  Boss.maxHealth (mutate (Boss.set_defeated d) l h x) = Boss.maxHealth (h x).
Proof. unfold mutate. destruct (Nat.eqb x l); repeat split. Qed.

(** The defeat transition, from any store with a current boss. *)
Lemma defeatBoss_transition (st : t) (boss : loc) :
  currentBoss (state st) = Some boss ->
  exists st',
    defeatBoss st = Returned st' /\
    (gamePhase (state st') = "victory" \/ gamePhase (state st') = "playing") /\
    currentBoss (state st') = None /\
    defeatedBosses (state st')
    = defeatedBosses (state st) ++ [Boss.id (heap st boss)] /\
    Boss.health (heap st' boss) = Boss.health (heap st boss) /\
    Boss.maxHealth (heap st' boss) = Boss.maxHealth (heap st boss).
Proof.
  intros Hboss. unfold defeatBoss. rewrite Hboss.
  eexists. split; [reflexivity|].
  destruct (findBoss (Boss.id (heap st boss)) st) as [[k l]|].
  - cbn [with_heap notifyObservers updateState state heap gameData merge].
    split.
    + cbn. destruct (forallb _ _); [left | right]; reflexivity.
    + repeat split; apply (mutate_defeated_frame true l boss (heap st)).
  - split.
    + cbn. destruct (forallb _ _); [left | right]; reflexivity.
    + repeat split.
Qed.

(** [damageBoss] never leaves the health of the boss it hits negative,
    whatever the amount. *)
Lemma damageBoss_health_nonnegative (damage : Z) (st st' : t) (boss : loc) :
  currentBoss (state st) = Some boss ->
  damageBoss damage st = Returned st' ->
  0 <= Boss.health (heap st' boss).
Proof.
  intros Hboss. unfold damageBoss. rewrite Hboss.
  set (st1 := with_heap _ st).
  assert (H1 : Boss.health (heap st1 boss) = Z.max 0 (Boss.health (heap st boss) - damage)).
  { subst st1. cbn [with_heap heap]. unfold mutate. rewrite Nat.eqb_refl. reflexivity. }
  destruct (Boss.health (heap st1 boss) <=? 0) eqn:E.
  - intros Hdefeat.
    destruct (defeatBoss_transition st1 boss Hboss) as (st2 & H2 & _ & _ & _ & Hh & _).
    rewrite H2 in Hdefeat. injection Hdefeat as <-. rewrite Hh, H1. lia.
  - intros [= <-]. cbn [notifyObservers updateState heap]. rewrite H1. lia.
Qed.

(** C3.  With an active boss (of non-negative [maxHealth]), a call
    [damageBoss(amount)] with an amount of at least the health of the
    boss returns; the health of the boss is then exactly 0, not
    negative, and within [0, maxHealth]; the phase is no longer [boss],
    there is no current boss, and the id of the boss has been appended
    to the defeated list once. *)
Theorem damageBoss_lethal (amount : Z) (st : t) (boss : loc) :
  currentBoss (state st) = Some boss ->
  0 <= Boss.maxHealth (heap st boss) ->
  Boss.health (heap st boss) <= amount ->
  exists st',
    damageBoss amount st = Returned st' /\
    Boss.health (heap st' boss) = 0 /\
    0 <= Boss.health (heap st' boss) <= Boss.maxHealth (heap st' boss) /\
    gamePhase (state st') <> "boss" /\
    currentBoss (state st') = None /\
    defeatedBosses (state st')
    = defeatedBosses (state st) ++ [Boss.id (heap st boss)] /\
    count_occ string_dec (defeatedBosses (state st')) (Boss.id (heap st boss))
    = S (count_occ string_dec (defeatedBosses (state st)) (Boss.id (heap st boss))).
Proof.
  intros Hboss Hrange Hlethal. unfold damageBoss. rewrite Hboss.
  set (st1 := with_heap _ st).
  assert (Hh : Boss.health (heap st1 boss) = 0).
  { subst st1. cbn [with_heap heap]. unfold mutate. rewrite Nat.eqb_refl.
    cbn [Boss.set_health Boss.health]. lia. }
  assert (Hm : Boss.maxHealth (heap st1 boss) = Boss.maxHealth (heap st boss)).
  { subst st1. cbn [with_heap heap]. unfold mutate. rewrite Nat.eqb_refl. reflexivity. }
  assert (Hi : Boss.id (heap st1 boss) = Boss.id (heap st boss)).
  { subst st1. cbn [with_heap heap]. unfold mutate. rewrite Nat.eqb_refl. reflexivity. }
  rewrite Hh. cbn [Z.leb Z.compare].
  destruct (defeatBoss_transition st1 boss Hboss)
    as (st2 & Hdef & Hphase & Hcur & Hlist & Hh2 & Hm2).
  exists st2. rewrite Hi in Hlist. change (defeatedBosses (state st1))
    with (defeatedBosses (state st)) in Hlist.
  split; [exact Hdef|].
  split; [congruence|].
  split; [rewrite Hh2, Hm2, Hh, Hm; lia|].
  split; [destruct Hphase as [-> | ->]; discriminate|].
  split; [exact Hcur|].
  split; [exact Hlist|].
  rewrite Hlist, count_occ_app. cbn [count_occ].
  destruct (string_dec _ _) as [_|Hne]; [lia | contradiction].
Qed.

Lemma damageBoss_lethal_witness :
  exists st',
    damageBoss 500 facingMalachar = Returned st' /\
    Boss.health (heap st' 3%nat) = 0 /\
    0 <= Boss.health (heap st' 3%nat) <= Boss.maxHealth (heap st' 3%nat) /\
    gamePhase (state st') <> "boss" /\
    currentBoss (state st') = None /\
    defeatedBosses (state st')
    = defeatedBosses (state facingMalachar) ++ [Boss.id (heap facingMalachar 3%nat)] /\
    count_occ string_dec (defeatedBosses (state st')) (Boss.id (heap facingMalachar 3%nat))
    = S (count_occ string_dec (defeatedBosses (state facingMalachar))
           (Boss.id (heap facingMalachar 3%nat))).
Proof.
  apply (damageBoss_lethal 500 facingMalachar 3%nat).
  - reflexivity.
  - vm_compute. discriminate.
  - vm_compute. discriminate.
Defined.

(** *** Campaigns: defeating catalog bosses one after another *)

(** Flags of the catalog, as lists. *)

Lemma markFirst_ids (i : string) (bs : list Boss.t) :
  map Boss.id (markFirst i bs) = map Boss.id bs.
Proof.
  induction bs as [|b bs IH]; [reflexivity|].
  cbn [markFirst]. destruct (String.eqb (Boss.id b) i).
  - reflexivity.
  - cbn [map]. rewrite IH. reflexivity.
Qed.

Lemma markAll_ids (ids : list string) :
  forall bs, map Boss.id (markAll ids bs) = map Boss.id bs.
Proof.
  induction ids as [|i ids IH]; intros bs; [reflexivity|].
  unfold markAll in *. cbn [fold_left]. rewrite IH. apply markFirst_ids.
Qed.







(** The catalog objects, through the heap. *)















End StoreProps.

(** ** Template generator: errors, history, inert placeholders *)

Module CompositeProps.
Import Generator Composite.

Section Expansion.

Variable random : nat -> unitQ.
Variable dateNow : nat -> Z.

(** The loop passes on what the nested call throws and throws nothing
    of its own. *)
Lemma nestedLoop_not_thrown (g : string -> t -> outcome (string * t)) :
  (forall n s e, is_Some (generators s !! n) -> g n s <> Thrown e) ->
  forall (budget : nat) (text : string) (lastIndex : nat) (st : t) (e : string),
    nestedLoop g budget text lastIndex st <> Thrown e.
Proof.
  intros Hg. induction budget as [|budget IH]; intros text lastIndex st e;
    cbn [nestedLoop]; destruct (regex_exec text lastIndex) as [m|]; try discriminate.
  destruct (generators st !! m_name m) as [entry|] eqn:Hm; [|apply IH].
  destruct (g (m_name m) st) as [[replacement st']| |] eqn:Hcall.
  - apply IH.
  - exfalso. eapply Hg; [|exact Hcall]. rewrite Hm. eauto.
  - discriminate.
Qed.

Lemma generate_registered_not_thrown (fuel : nat) :
  forall (name : string) (recordHistory : bool) (st : t) (e : string),
    is_Some (generators st !! name) ->
    generate random dateNow fuel name recordHistory st <> Thrown e.
Proof.
  induction fuel as [|fuel IH]; intros name recordHistory st e [entry Hentry];
    cbn [generate]; [discriminate|].
  rewrite Hentry.
  destruct (selectRandomItem random (items entry) st) as [item st1].
  unfold processNestedGenerators.
  destruct (nestedLoop _ maxIterations item 0 st1) as [[result st2]| |] eqn:Hloop.
  - destruct recordHistory; discriminate.
  - exfalso. revert Hloop. apply nestedLoop_not_thrown.
    intros n s e' Hn. apply IH. exact Hn.
  - discriminate.
Qed.

(** The loop keeps the table and the history when the nested call
    does. *)
Lemma nestedLoop_keeps (g : string -> t -> outcome (string * t)) :
  (forall n s r s', g n s = Returned (r, s') ->
     generators s' = generators s /\ history s' = history s) ->
  forall (budget : nat) (text : string) (lastIndex : nat) (st : t) (r : string) (st' : t),
    nestedLoop g budget text lastIndex st = Returned (r, st') ->
    generators st' = generators st /\ history st' = history st.
Proof.
  intros Hg. induction budget as [|budget IH]; intros text lastIndex st r st';
    cbn [nestedLoop]; destruct (regex_exec text lastIndex) as [m|];
    try (intros [= _ <-]; split; reflexivity).
  destruct (generators st !! m_name m) as [entry|]; [|apply IH].
  destruct (g (m_name m) st) as [[replacement st1]| |] eqn:Hcall; try discriminate.
  intros Hloop. apply IH in Hloop as [Hgen Hhist].
  apply Hg in Hcall as [Hgen1 Hhist1]. split; congruence.
Qed.

(** X2.  A call of [generate] that returns leaves the table of
    generators as it is.  A top-level call appends exactly one record
    to the history, holding the name asked for and the string returned;
    the nested calls made for placeholders append nothing. *)
Theorem generate_history (fuel : nat) :
  forall (name : string) (recordHistory : bool) (st : t) (result : string) (st' : t),
    generate random dateNow fuel name recordHistory st = Returned (result, st') ->
    generators st' = generators st /\
    history st'
    = history st
      ++ (if recordHistory
          then [mkHistory name result (dateNow (List.length (history st)))]
          else []).
Proof.
  induction fuel as [|fuel IH]; intros name recordHistory st result st';
    cbn [generate]; [discriminate|].
  destruct (generators st !! name) as [entry|]; [|discriminate].
  destruct (selectRandomItem random (items entry) st) as [item st1] eqn:Hselect.
  assert (Hst1 : generators st1 = generators st /\ history st1 = history st).
  { unfold selectRandomItem in Hselect. destruct (items entry); injection Hselect as _ <-;
      split; reflexivity. }
  unfold processNestedGenerators.
  destruct (nestedLoop _ maxIterations item 0 st1) as [[r st2]| |] eqn:Hloop;
    try discriminate.
  apply nestedLoop_keeps in Hloop as [Hgen Hhist].
  - destruct Hst1 as [Hgen1 Hhist1].
    destruct recordHistory; intros [= <- <-]; cbn [generators history].
    + split; [congruence|]. rewrite Hhist, Hhist1. reflexivity.
    + split; [congruence|]. rewrite app_nil_r. congruence.
  - intros n s r' s' Hcall. apply IH in Hcall as [Hg Hh].
    split; [exact Hg|]. rewrite Hh. apply app_nil_r.
Qed.

(** X3.  Placeholders whose names are not registered are inert: if that
    holds for the names the scan meets, the text comes back unchanged,
    no nested call is made and no random value is drawn. *)
Theorem unregistered_placeholders_inert
    (g : string -> t -> outcome (string * t)) (text : string) (st : t) :
  Forall (fun name => generators st !! name = None)
         (placeholdersFrom maxIterations text 0) ->
  processNestedGenerators g text st = Returned (text, st).
Proof.
  unfold processNestedGenerators. generalize 0%nat as lastIndex.
  induction maxIterations as [|budget IH]; intros lastIndex Hnames;
    cbn [nestedLoop placeholdersFrom] in *;
    destruct (regex_exec text lastIndex) as [m|]; try reflexivity.
  apply Forall_cons in Hnames as [Hm Hrest].
  rewrite Hm. apply IH. exact Hrest.
Qed.

(** The round cap, on a template made of references to one pool. *)

Lemma substring_all (s : string) : substring 0 (String.length s) s = s.
Proof. induction s as [|c s IH]; [reflexivity|]. cbn. rewrite IH. reflexivity. Qed.

Lemma copies_shift (k : nat) (rest : string) :
  copies k "x" +:+ "x" +:+ rest = copies (S k) "x" +:+ rest.
Proof.
  induction k as [|k IH]; [reflexivity|].
  change (String "x" (copies k "x" +:+ "x" +:+ rest)
          = String "x" (copies (S k) "x" +:+ rest)).
  rewrite IH. reflexivity.
Qed.

Lemma scan_no_bracket (k pos : nat) : scan (copies k "x") pos = None.
Proof. revert pos. induction k as [|k IH]; intros pos; [reflexivity|]. cbn. apply IH. Qed.

Lemma scan_first_reference (k : nat) (rest : string) :
  forall pos, exists m,
    scan (copies k "x" +:+ "[a]" +:+ rest) pos = Some m /\
    m_name m = "a" /\ m_text m = "[a]".
Proof.
  induction k as [|k IH]; intros pos.
  - eexists. split; [reflexivity|]. split; reflexivity.
  - cbn. apply IH.
Qed.

Lemma index_first_reference (k : nat) (rest : string) :
  index 0 "[a]" (copies k "x" +:+ "[a]" +:+ rest) = Some k.
Proof.
  induction k as [|k IH].
  - destruct rest; reflexivity.
  - change (copies (S k) "x" +:+ "[a]" +:+ rest)
      with (String "x" (copies k "x" +:+ "[a]" +:+ rest)).
    cbn [index prefix].
    destruct (ascii_dec "[" "x") as [H|_]; [discriminate H|].
    rewrite IH. reflexivity.
Qed.

Lemma copies_S (k : nat) : copies (S k) "x" = String "x" (copies k "x").
Proof. reflexivity. Qed.

Lemma append_cons (c : ascii) (s rest : string) :
  String c s +:+ rest = String c (s +:+ rest).
Proof. reflexivity. Qed.

Lemma substring_prefix_copies (k : nat) (rest : string) :
  substring 0 k (copies k "x" +:+ rest) = copies k "x".
Proof.
  induction k as [|k IH].
  - destruct rest; reflexivity.
  - rewrite copies_S, append_cons. cbn [substring]. rewrite IH. reflexivity.
Qed.

Lemma substring_after_copies (k n : nat) (rest : string) :
  substring (k + 3) n (copies k "x" +:+ "[a]" +:+ rest) = substring 0 n rest.
Proof.
  induction k as [|k IH].
  - reflexivity.
  - rewrite copies_S, append_cons. cbn [Nat.add substring]. exact IH.
Qed.

Lemma length_copies_reference (k : nat) (rest : string) :
  String.length (copies k "x" +:+ "[a]" +:+ rest) = (k + 3 + String.length rest)%nat.
Proof.
  induction k as [|k IH]; [reflexivity|].
  rewrite copies_S, append_cons. cbn [String.length Nat.add]. rewrite IH. reflexivity.
Qed.

Lemma replace_first_reference (k m : nat) :
  replace (copies k "x" +:+ copies (S m) "[a]") "[a]" "x"
  = copies (S k) "x" +:+ copies m "[a]".
Proof.
  unfold replace.
  change (copies (S m) "[a]") with ("[a]" +:+ copies m "[a]").
  rewrite index_first_reference, substring_prefix_copies.
  change (String.length "[a]") with 3%nat.
  rewrite length_copies_reference, substring_after_copies.
  replace (k + 3 + String.length (copies m "[a]") - (k + 3))%nat
    with (String.length (copies m "[a]")) by lia.
  rewrite substring_all.
  change (getSubstitution "[a]" (copies k "x") (copies m "[a]") "x") with "x".
  apply copies_shift.
Qed.

Lemma append_empty_r (s : string) : s +:+ "" = s.
Proof.
  induction s as [|c s IH]; [reflexivity|]. rewrite append_cons, IH. reflexivity.
Qed.

Lemma exec_first_reference (k m : nat) :
  exists mt,
    regex_exec (copies k "x" +:+ copies (S m) "[a]") 0 = Some mt /\
    m_name mt = "a" /\ m_text mt = "[a]".
Proof.
  unfold regex_exec. cbn [Nat.ltb Nat.leb]. rewrite Nat.sub_0_r, substring_all.
  change (copies (S m) "[a]") with ("[a]" +:+ copies m "[a]").
  apply scan_first_reference.
Qed.

Lemma exec_no_reference (k : nat) : regex_exec (copies k "x" +:+ copies 0 "[a]") 0 = None.
Proof.
  unfold regex_exec. cbn [Nat.ltb Nat.leb]. rewrite Nat.sub_0_r, substring_all.
  change (copies 0 "[a]") with "". rewrite append_empty_r.
  apply scan_no_bracket.
Qed.

Lemma nestedLoop_no_match (g : string -> t -> outcome (string * t))
    (budget : nat) (text : string) (lastIndex : nat) (st : t) :
  regex_exec text lastIndex = None ->
  nestedLoop g budget text lastIndex st = Returned (text, st).
Proof. intros H. destruct budget; cbn [nestedLoop]; rewrite H; reflexivity. Qed.

Lemma generate_unfold (fuel : nat) (name : string) (recordHistory : bool) (st : t) :
  generate random dateNow (S fuel) name recordHistory st
  = match generators st !! name with
    | None => Thrown ("Generator '" +:+ name +:+ "' not found")
    | Some generator =>
        let '(item, st1) := selectRandomItem random (items generator) st in
        match processNestedGenerators
                (fun n s => generate random dateNow fuel n false s) item st1 with
        | Returned (result, st2) =>
            if recordHistory then
              Returned (result,
                mkGen (generators st2)
                      (history st2 ++
                         [mkHistory name result (dateNow (List.length (history st2)))])
                      (drawn st2))
            else Returned (result, st2)
        | Thrown e => Thrown e
        | OutOfFuel => OutOfFuel
        end
    end.
Proof. reflexivity. Qed.

Lemma generate_single_x (fuel : nat) (e : GeneratorEntry) (st : t) :
  generators st !! "a" = Some e ->
  items e = ["x"] ->
  generate random dateNow (S fuel) "a" false st
  = Returned ("x", mkGen (generators st) (history st) (S (drawn st))).
Proof.
  intros Ha Hitems.
  rewrite generate_unfold, Ha, Hitems, GeneratorProps.selectRandomItem_single.
  unfold processNestedGenerators. rewrite nestedLoop_no_match; reflexivity.
Qed.

Lemma nestedLoop_references (fuel : nat) (e : GeneratorEntry) :
  items e = ["x"] ->
  forall (budget k m : nat) (st : t),
    generators st !! "a" = Some e ->
    nestedLoop (fun n s => generate random dateNow (S fuel) n false s)
               budget (copies k "x" +:+ copies m "[a]") 0 st
    = Returned (copies (k + Nat.min budget m) "x" +:+ copies (m - Nat.min budget m) "[a]",
                mkGen (generators st) (history st) (drawn st + Nat.min budget m)).
Proof.
  intros Hitems. induction budget as [|budget IH]; intros k m st Ha.
  - cbn [nestedLoop Nat.min]. rewrite !Nat.add_0_r, Nat.sub_0_r.
    destruct (regex_exec _ 0); destruct st; reflexivity.
  - destruct m as [|m].
    + rewrite nestedLoop_no_match by apply exec_no_reference.
      rewrite Nat.min_0_r, !Nat.add_0_r. destruct st; reflexivity.
    + cbn [nestedLoop].
      destruct (exec_first_reference k m) as (mt & -> & Hname & Htext).
      rewrite Hname, Htext, Ha.
      rewrite (generate_single_x fuel e st Ha Hitems).
      rewrite replace_first_reference, IH by exact Ha.
      cbn [generators history drawn Nat.min Nat.sub].
      replace (S k + Nat.min budget m)%nat with (k + S (Nat.min budget m))%nat by lia.
      replace (S (drawn st) + Nat.min budget m)%nat
        with (drawn st + S (Nat.min budget m))%nat by lia.
      reflexivity.
Qed.

(** X4.  The cap counts substitutions.  Let the pool [a] hold the
    single item [x], and let a pool hold one template made of [n]
    references to [a].  Its expansion replaces the first ten
    references and returns the others as literal text. *)
Theorem cap_leaves_later_references (fuel n : nat) (name : string)
    (recordHistory : bool) (st : t) (e pool : GeneratorEntry) :
  generators st !! "a" = Some e ->
  items e = ["x"] ->
  generators st !! name = Some pool ->
  items pool = [copies n "[a]"] ->
  exists st',
    generate random dateNow (S (S fuel)) name recordHistory st
    = Returned (copies (Nat.min n 10) "x" +:+ copies (n - 10) "[a]", st').
Proof.
  intros Ha Hitems Hpool Htemplate.
  rewrite generate_unfold, Hpool, Htemplate, GeneratorProps.selectRandomItem_single.
  unfold processNestedGenerators.
  pose proof (nestedLoop_references fuel e Hitems maxIterations 0 n
                (mkGen (generators st) (history st) (S (drawn st))) Ha) as Hloop.
  change (copies 0 "x" +:+ copies n "[a]") with (copies n "[a]") in Hloop.
  rewrite Hloop.
  replace (Nat.min maxIterations n) with (Nat.min n 10) by (unfold maxIterations; lia).
  replace (n - Nat.min n 10)%nat with (n - 10)%nat by lia.
  rewrite Nat.add_0_l.
  destruct recordHistory; eexists; reflexivity.
Qed.

End Expansion.

Lemma cap_leaves_later_references_witness :
  exists st',
    generate Samples.alternating Samples.clock 2 "row" true Samples.twelve
    = Returned (copies (Nat.min 12 10) "x" +:+ copies (12 - 10) "[a]", st').
Proof.
  apply (cap_leaves_later_references Samples.alternating Samples.clock 0 12 "row" true
           Samples.twelve (mkEntry 1 ["x"]) (mkEntry 1 [copies 12 "[a]"])).
  - reflexivity.
  - reflexivity.
  - reflexivity.
  - reflexivity.
Defined.

Lemma generate_history_witness :
  generators (snd Samples.cardNameRun) = generators create /\
  history (snd Samples.cardNameRun)
  = history create
    ++ [mkHistory "customCardName" (fst Samples.cardNameRun)
          (Samples.clock (List.length (history create)))].
Proof.
  apply (generate_history Samples.alternating Samples.clock 3 "customCardName" true create
           (fst Samples.cardNameRun) (snd Samples.cardNameRun)).
  vm_compute. reflexivity.
Defined.

Lemma unregistered_placeholders_inert_witness :
  processNestedGenerators
    (fun n s => generate Samples.alternating Samples.clock 2 n false s)
    "Retrieve the [questItem] from [questLocation]" create
  = Returned ("Retrieve the [questItem] from [questLocation]", create).
Proof.
  apply unregistered_placeholders_inert.
  vm_compute. repeat constructor.
Defined.

(** Export and import. *)

Lemma importGenerators_table (gs : gmap string GeneratorInput) (st : t) :
  generators (importGenerators gs st) = (stored <$> gs) ∪ generators st /\
  history (importGenerators gs st) = history st /\
  drawn (importGenerators gs st) = drawn st.
Proof.
  unfold importGenerators.
  apply (map_fold_weak_ind
           (fun acc m =>
              generators acc = (stored <$> m) ∪ generators st /\
              history acc = history st /\ drawn acc = drawn st)).
  - rewrite fmap_empty, (left_id_L ∅ (∪)). repeat split.
  - intros i x m acc _ (Hgen & Hhist & Hdrawn).
    unfold addGenerator. cbn [generators history drawn].
    rewrite Hgen, fmap_insert, insert_union_l. repeat split; assumption.
Qed.

(** X5.  Importing what [exportGenerators] returned registers every
    exported pool with its weight and items as they were and overwrites
    pools of the same name; a pool named [__proto__] is not exported.
    The history is not touched. *)
Theorem export_import_round_trip (st target : t) :
  generators (importGenerators (exportGenerators st) target)
  = delete "__proto__" (generators st) ∪ generators target /\
  history (importGenerators (exportGenerators st) target) = history target.
Proof.
  destruct (importGenerators_table (exportGenerators st) target) as (Hgen & Hhist & _).
  split; [|exact Hhist]. rewrite Hgen. unfold exportGenerators.
  rewrite <- map_fmap_compose.
  rewrite (map_fmap_ext (stored ∘ asInput) id); [rewrite map_fmap_id; reflexivity|].
  intros i [w its] _. reflexivity.
Qed.

(** Composite builders. *)

Section Builders.

Variable random : nat -> unitQ.
Variable dateNow : nat -> Z.

Lemma randomInt_range (n : nat) (k : Z) (st : t) (z : Z) (st' : t) :
  (0 < n)%nat ->
  randomInt random n k st = Returned (z, st') ->
  k <= z < k + Z.of_nat n /\
  generators st' = generators st /\ history st' = history st.
Proof.
  intros Hn. unfold randomInt, bind, mathRandom, ret. intros [= <- <-].
  pose proof (floorRandom_lt (random (drawn st)) n Hn).
  cbn [generators history]. repeat split; lia.
Qed.

Lemma mathRandom_keeps (st : t) (r : unitQ) (st' : t) :
  mathRandom random st = Returned (r, st') ->
  generators st' = generators st /\ history st' = history st.
Proof. unfold mathRandom. intros [= _ <-]. split; reflexivity. Qed.

Lemma pick_member (its : list string) (st : t) (item : string) (st' : t) :
  pick random its st = Returned (item, st') ->
  its <> [] ->
  In item its /\ generators st' = generators st /\ history st' = history st.
Proof.
  unfold pick, selectRandomItem. destruct its as [|first rest]; [contradiction|].
  set (chosen := nth _ (first :: rest) "undefined").
  assert (Hin : In chosen (first :: rest)).
  { apply nth_In. apply floorRandom_lt. cbn. lia. }
  clearbody chosen. intros [= <- <-] _. split; [exact Hin | split; reflexivity].
Qed.

(** A nested call keeps the table and the history. *)
Lemma nested_generate_keeps (fuel : nat) :
  forall (name : string) (st : t) (r : string) (st' : t),
    generate random dateNow fuel name false st = Returned (r, st') ->
    generators st' = generators st /\ history st' = history st.
Proof.
  induction fuel as [|fuel IH]; intros name st r st'; [discriminate|].
  rewrite generate_unfold.
  destruct (generators st !! name) as [entry|]; [|discriminate].
  destruct (selectRandomItem random (items entry) st) as [item st1] eqn:Hselect.
  assert (Hst1 : generators st1 = generators st /\ history st1 = history st).
  { unfold selectRandomItem in Hselect. destruct (items entry); injection Hselect as _ <-;
      split; reflexivity. }
  unfold processNestedGenerators.
  destruct (nestedLoop _ maxIterations item 0 st1) as [[r2 st2]| |] eqn:Hloop;
    try discriminate.
  apply nestedLoop_keeps in Hloop as [Hgen Hhist]; [|exact IH].
  destruct Hst1 as [Hgen1 Hhist1]. intros [= _ <-]. split; congruence.
Qed.

(** The loop returns its text as it is when no name it meets is
    registered. *)
Lemma nestedLoop_inert (g : string -> t -> outcome (string * t)) (text : string) (st : t) :
  forall (budget lastIndex : nat),
    Forall (fun name => generators st !! name = None)
           (placeholdersFrom budget text lastIndex) ->
    nestedLoop g budget text lastIndex st = Returned (text, st).
Proof.
  induction budget as [|budget IH]; intros lastIndex Hnames;
    cbn [nestedLoop placeholdersFrom] in *;
    destruct (regex_exec text lastIndex) as [m|]; try reflexivity.
  apply Forall_cons in Hnames as [Hm Hrest].
  rewrite Hm. apply IH. exact Hrest.
Qed.

(** The loop runs out of call depth only when a nested call for a
    registered name does. *)
Lemma nestedLoop_exhausted (g : string -> t -> outcome (string * t))
    (G : gmap string GeneratorEntry) :
  (forall n s r s', g n s = Returned (r, s') -> generators s' = generators s) ->
  forall (budget : nat) (text : string) (lastIndex : nat) (st : t),
    generators st = G ->
    nestedLoop g budget text lastIndex st = OutOfFuel ->
    exists n s, generators s = G /\ is_Some (G !! n) /\ g n s = OutOfFuel.
Proof.
  intros Hg. induction budget as [|budget IH]; intros text lastIndex st HG;
    cbn [nestedLoop]; destruct (regex_exec text lastIndex) as [m|]; try discriminate.
  destruct (generators st !! m_name m) as [entry|] eqn:Hm; [|apply IH; exact HG].
  destruct (g (m_name m) st) as [[replacement st1]| |] eqn:Hcall.
  - apply IH. rewrite (Hg _ _ _ _ Hcall). exact HG.
  - discriminate.
  - intros _. exists (m_name m), st. split; [exact HG|]. split; [|exact Hcall].
    rewrite <- HG, Hm. eauto.
Qed.

(** X1.  [generate] throws the error [Generator '<name>' not found]
    exactly when the name it is called with is not registered.  For a
    registered name no error of the method is thrown at any nesting,
    since the loop asks [has] before each nested call: the call returns
    a string, or it exhausts the depth of calls, which ends JavaScript
    with the error of a full call stack, as for a pool that refers to
    itself.  It exhausts the depth only through a nested call for a
    registered pool that does; when no item of the pool holds the name
    of a registered pool, it returns one of its items, or
    [Empty generator] for a pool without items, at every depth. *)
Theorem generate_throws_only_unregistered (fuel : nat) (name : string)
    (recordHistory : bool) (st : t) :
  match generators st !! name with
  | None =>
      generate random dateNow (S fuel) name recordHistory st
      = Thrown ("Generator '" +:+ name +:+ "' not found")
  | Some entry =>
      (forall e, generate random dateNow (S fuel) name recordHistory st <> Thrown e) /\
      (generate random dateNow (S fuel) name recordHistory st = OutOfFuel ->
       exists n s,
         generators s = generators st /\ is_Some (generators st !! n) /\
         generate random dateNow fuel n false s = OutOfFuel) /\
      (Forall (fun item =>
                 Forall (fun n => generators st !! n = None)
                        (placeholdersFrom maxIterations item 0))
              (items entry) ->
       exists result st',
         generate random dateNow (S fuel) name recordHistory st = Returned (result, st') /\
         In result (match items entry with
                    | [] => ["Empty generator"]
                    | its => its
                    end))
  end.
Proof.
  destruct (generators st !! name) as [entry|] eqn:Hentry.
  - split; [|split].
    + intros e. apply generate_registered_not_thrown. rewrite Hentry. eauto.
    + rewrite generate_unfold, Hentry.
      destruct (selectRandomItem random (items entry) st) as [item st1] eqn:Hselect.
      assert (Hst1 : generators st1 = generators st).
      { unfold selectRandomItem in Hselect.
        destruct (items entry); injection Hselect as _ <-; reflexivity. }
      unfold processNestedGenerators.
      destruct (nestedLoop _ maxIterations item 0 st1) as [[r st2]| |] eqn:Hloop.
      * destruct recordHistory; discriminate.
      * discriminate.
      * intros _.
        apply (nestedLoop_exhausted _ (generators st)) in Hloop; [exact Hloop | | exact Hst1].
        intros n s r s' Hcall. apply nested_generate_keeps in Hcall as [Hgen _]. exact Hgen.
    + intros Hinert. rewrite generate_unfold, Hentry.
      assert (Hitem : exists item st1,
                 selectRandomItem random (items entry) st = (item, st1) /\
                 generators st1 = generators st /\
                 In item (match items entry with [] => ["Empty generator"] | its => its end) /\
                 Forall (fun n => generators st !! n = None)
                        (placeholdersFrom maxIterations item 0)).
      { unfold selectRandomItem. destruct (items entry) as [|first rest] eqn:Hitems.
        - exists "Empty generator", st. split; [reflexivity|]. split; [reflexivity|].
          split; [left; reflexivity | constructor].
        - eexists _, _. split; [reflexivity|]. split; [reflexivity|].
          assert (Hin : In (nth (floorRandom (random (drawn st)) (List.length (first :: rest)))
                                (first :: rest) "undefined") (first :: rest)).
          { apply nth_In. apply floorRandom_lt. cbn. lia. }
          split; [exact Hin|].
          rewrite Forall_forall in Hinert. apply Hinert.
          apply list_elem_of_In. exact Hin. }
      destruct Hitem as (item & st1 & -> & Hst1 & Hin & Hnames).
      unfold processNestedGenerators.
      rewrite nestedLoop_inert by (rewrite Hst1; exact Hnames).
      destruct recordHistory; eexists _, _; (split; [reflexivity | exact Hin]).
  - cbn [generate]. rewrite Hentry. reflexivity.
Qed.

(** A top-level [generate] adds one record to the history. *)
Lemma gen_logs (fuel : nat) (name : string) (st : t) (result : string) (st' : t) :
  gen random dateNow fuel name st = Returned (result, st') ->
  generators st' = generators st /\
  List.length (history st') = S (List.length (history st)).
Proof.
  unfold gen. destruct fuel as [|fuel']; [discriminate|].
  rewrite generate_unfold.
  destruct (generators st !! name) as [entry|]; [|discriminate].
  destruct (selectRandomItem random (items entry) st) as [item st1] eqn:Hselect.
  assert (Hst1 : generators st1 = generators st /\ history st1 = history st).
  { unfold selectRandomItem in Hselect. destruct (items entry); injection Hselect as _ <-;
      split; reflexivity. }
  unfold processNestedGenerators.
  destruct (nestedLoop _ maxIterations item 0 st1) as [[r st2]| |] eqn:Hloop;
    try discriminate.
  apply nestedLoop_keeps in Hloop as [Hgen Hhist]; [|apply nested_generate_keeps].
  destruct Hst1 as [Hgen1 Hhist1]. intros [= <- <-]. cbn [generators history].
  split; [congruence|]. rewrite List.length_app, Hhist, Hhist1. cbn. lia.
Qed.

Ltac next_bind H :=
  unfold bind at 1 in H;
  match type of H with
  | match ?c with _ => _ end = _ =>
      let E := fresh "E" in
      destruct c as [[? ?]| |] eqn:E; try discriminate
  end.

(** X6.  A boss built by [generateBossEncounter] has a health between
    100 and 149, two abilities and three loot entries; the nine
    expansions it makes are each logged in the history. *)
Theorem generateBossEncounter_shape (fuel : nat) (st : t) (b : BossRec) (st' : t) :
  generateBossEncounter random dateNow fuel st = Returned (b, st') ->
  100 <= boss_health b <= 149 /\
  List.length (boss_abilities b) = 2%nat /\
  List.length (boss_loot b) = 3%nat /\
  generators st' = generators st /\
  List.length (history st') = (List.length (history st) + 9)%nat.
Proof.
  unfold generateBossEncounter. intros H.
  do 10 next_bind H.
  unfold ret in H. injection H as <- <-. cbn [boss_health boss_abilities boss_loot].
  repeat match goal with
         | E : gen _ _ _ _ _ = Returned _ |- _ => apply gen_logs in E; destruct E
         | E : randomInt _ _ _ _ = Returned _ |- _ =>
             let Hh := fresh "Hh" in
             apply randomInt_range in E; [destruct E as (? & ? & Hh) | lia];
             apply (f_equal (@List.length HistoryRecord)) in Hh
         end.
  repeat split; try lia; congruence.
Qed.

Ltac use_steps :=
  repeat match goal with
         | E : gen _ _ _ _ _ = Returned _ |- _ => apply gen_logs in E; destruct E
         | E : randomInt _ _ _ _ = Returned _ |- _ =>
             let Hh := fresh "Hh" in
             apply randomInt_range in E; [destruct E as (? & ? & Hh) | lia];
             apply (f_equal (@List.length HistoryRecord)) in Hh
         | E : mathRandom _ _ = Returned _ |- _ =>
             let Hh := fresh "Hh" in
             apply mathRandom_keeps in E; destruct E as (? & Hh);
             apply (f_equal (@List.length HistoryRecord)) in Hh
         end.

(** The step [cond ? <one more call> : null] of the builders. *)
Ltac optional_step :=
  match goal with
  | E : (if ?b then _ else _) _ = Returned _ |- _ =>
      destruct b;
      [ next_bind E; unfold ret in E; injection E as <- <-
      | unfold ret in E; injection E as <- <- ]
  end.

(** X7.  An encounter built by [generateCompleteEncounter] has a
    difficulty between 1 and 5 and two rewards; the history grows by
    the five expansions it always makes, and by one more when the
    encounter has a special effect. *)
Theorem generateCompleteEncounter_shape (fuel : nat) (st : t)
    (enc : Store.Encounter.t) (st' : t) :
  generateCompleteEncounter random dateNow fuel st = Returned (enc, st') ->
  1 <= Store.Encounter.difficulty enc <= 5 /\
  List.length (Store.Encounter.rewards enc) = 2%nat /\
  generators st' = generators st /\
  List.length (history st')
  = (List.length (history st) + 5
     + match Store.Encounter.special enc with Some _ => 1 | None => 0 end)%nat.
Proof.
  unfold generateCompleteEncounter. intros H.
  do 8 next_bind H.
  unfold ret in H. injection H as <- <-.
  cbn [Store.Encounter.difficulty Store.Encounter.rewards Store.Encounter.special].
  optional_step; use_steps; repeat split; try lia; congruence.
Qed.

(** X8.  A quest built by [generateQuest] has a difficulty between 1
    and 5, a time limit that is absent or between 5 and 14, and two
    rewards; its five expansions are logged. *)
Theorem generateQuest_shape (fuel : nat) (st : t) (q : QuestRec) (st' : t) :
  generateQuest random dateNow fuel st = Returned (q, st') ->
  1 <= quest_difficulty q <= 5 /\
  match quest_timeLimit q with
  | Some limit => 5 <= limit <= 14
  | None => True
  end /\
  List.length (quest_rewards q) = 2%nat /\
  generators st' = generators st /\
  List.length (history st') = (List.length (history st) + 5)%nat.
Proof.
  unfold generateQuest. intros H.
  do 8 next_bind H.
  unfold ret in H. injection H as <- <-.
  cbn [quest_difficulty quest_timeLimit quest_rewards].
  optional_step; use_steps; repeat split; try lia; congruence.
Qed.

(** X9.  A card built by [generateCustomCard] has one of the five card
    types and a cost between 1 and 8; it has a power and a toughness,
    each between 1 and 8, exactly when its type is Creature. *)
Theorem generateCustomCard_shape (fuel : nat) (st : t) (c : CardRec) (st' : t) :
  generateCustomCard random dateNow fuel st = Returned (c, st') ->
  In (card_type c) ["Creature"; "Instant"; "Sorcery"; "Artifact"; "Enchantment"] /\
  1 <= card_cost c <= 8 /\
  if String.eqb (card_type c) "Creature"
  then exists power toughness,
         card_power c = Some power /\ card_toughness c = Some toughness /\
         1 <= power <= 8 /\ 1 <= toughness <= 8
  else card_power c = None /\ card_toughness c = None.
Proof.
  unfold generateCustomCard. intros H.
  do 6 next_bind H.
  match goal with
  | E : pick _ _ _ = Returned (?type, _) |- _ =>
      apply pick_member in E; [destruct E as (Htype & _ & _) | discriminate];
      destruct (String.eqb type "Creature") eqn:Hcreature
  end.
  - do 2 next_bind H. unfold ret in H. injection H as <- <-.
    cbn [card_type card_cost card_power card_toughness]. rewrite Hcreature.
    use_steps. split; [exact Htype|]. split; [lia|].
    eexists _, _. repeat split; lia.
  - unfold ret in H. injection H as <- <-.
    cbn [card_type card_cost card_power card_toughness]. rewrite Hcreature.
    use_steps. split; [exact Htype|]. split; [lia|]. split; reflexivity.
Qed.

End Builders.

Lemma generate_throws_only_unregistered_witness :
  generate Samples.alternating Samples.clock 1 "questGiver" true create
  = Thrown "Generator 'questGiver' not found" /\
  exists result st',
    generate Samples.alternating Samples.clock 1 "questObjective" true create
    = Returned (result, st') /\
    In result
       [ "Retrieve the [questItem] from [questLocation]";
         "Defeat [questTarget] before [questTimeLimit]";
         "Protect [questNPC] during [questEvent]";
         "Collect [questQuantity] [questResource] for [questReason]";
         "Investigate [questMystery] in [questLocation]" ].
Proof.
  split.
  - exact (generate_throws_only_unregistered Samples.alternating Samples.clock 0
             "questGiver" true create).
  - pose proof (generate_throws_only_unregistered Samples.alternating Samples.clock 0
                  "questObjective" true create) as H.
    vm_compute (generators create !! "questObjective") in H.
    destruct H as (_ & _ & H). apply H.
    repeat (constructor; try (vm_compute; reflexivity)).
Defined.

Lemma generateBossEncounter_shape_witness :
  100 <= boss_health (fst Samples.bossRun) <= 149 /\
  List.length (boss_abilities (fst Samples.bossRun)) = 2%nat /\
  List.length (boss_loot (fst Samples.bossRun)) = 3%nat /\
  generators (snd Samples.bossRun) = generators create /\
  List.length (history (snd Samples.bossRun)) = (List.length (history create) + 9)%nat.
Proof.
  apply (generateBossEncounter_shape Samples.alternating Samples.clock 3 create
           (fst Samples.bossRun) (snd Samples.bossRun)).
  vm_compute. reflexivity.
Defined.

Lemma generateCompleteEncounter_shape_witness :
  1 <= Store.Encounter.difficulty (fst Samples.encounterRun) <= 5 /\
  List.length (Store.Encounter.rewards (fst Samples.encounterRun)) = 2%nat /\
  generators (snd Samples.encounterRun) = generators create /\
  List.length (history (snd Samples.encounterRun))
  = (List.length (history create) + 5
     + match Store.Encounter.special (fst Samples.encounterRun) with
       | Some _ => 1
       | None => 0
       end)%nat.
Proof.
  apply (generateCompleteEncounter_shape Samples.alternating Samples.clock 3 create
           (fst Samples.encounterRun) (snd Samples.encounterRun)).
  vm_compute. reflexivity.
Defined.

Lemma generateQuest_shape_witness :
  1 <= quest_difficulty (fst Samples.questRun) <= 5 /\
  match quest_timeLimit (fst Samples.questRun) with
  | Some limit => 5 <= limit <= 14
  | None => True
  end /\
  List.length (quest_rewards (fst Samples.questRun)) = 2%nat /\
  generators (snd Samples.questRun) = generators create /\
  List.length (history (snd Samples.questRun)) = (List.length (history create) + 5)%nat.
Proof.
  apply (generateQuest_shape Samples.alternating Samples.clock 3 create
           (fst Samples.questRun) (snd Samples.questRun)).
  vm_compute. reflexivity.
Defined.

Lemma generateCustomCard_shape_witness :
  In (card_type (fst Samples.cardRun))
     ["Creature"; "Instant"; "Sorcery"; "Artifact"; "Enchantment"] /\
  1 <= card_cost (fst Samples.cardRun) <= 8 /\
  if String.eqb (card_type (fst Samples.cardRun)) "Creature"
  then exists power toughness,
         card_power (fst Samples.cardRun) = Some power /\
         card_toughness (fst Samples.cardRun) = Some toughness /\
         1 <= power <= 8 /\ 1 <= toughness <= 8
  else card_power (fst Samples.cardRun) = None /\
       card_toughness (fst Samples.cardRun) = None.
Proof.
  apply (generateCustomCard_shape Samples.alternating Samples.clock 3 create
           (fst Samples.cardRun) (snd Samples.cardRun)).
  vm_compute. reflexivity.
Defined.

(** *** The default tables *)

Section Defaults.

Variable random : nat -> unitQ.
Variable dateNow : nat -> Z.

Lemma collect_Some (l : list (option (list string))) (out : list string) :
  collect l = Some out ->
  forall o, In o l -> exists xs, o = Some xs /\ incl xs out.
Proof.
  revert out. induction l as [|o' l IH]; intros out Hc o Ho; [destruct Ho|].
  cbn [collect] in Hc. destruct o' as [xs|]; [|discriminate].
  destruct (collect l) as [ys|] eqn:E; [|discriminate].
  injection Hc as <-. destruct Ho as [<-|Ho].
  - exists xs. split; [reflexivity|]. apply incl_appl, incl_refl.
  - destruct (IH ys eq_refl o Ho) as (zs & -> & Hz). exists zs. split; [reflexivity|].
    apply incl_appr. exact Hz.
Qed.

(** The loop leaves one of the listed strings when every nested call
    returns one of those listed for it. *)
Lemma loopResults_sound (G : gmap string GeneratorEntry)
    (results : string -> option (list string))
    (g : string -> t -> outcome (string * t)) :
  (forall n rs s, generators s = G -> results n = Some rs ->
     exists r s', g n s = Returned (r, s') /\ In r rs /\ generators s' = G) ->
  forall (budget : nat) (text : string) (lastIndex : nat) (out : list string) (st : t),
    generators st = G ->
    loopResults G results budget text lastIndex = Some out ->
    exists r st',
      nestedLoop g budget text lastIndex st = Returned (r, st') /\
      In r out /\ generators st' = G.
Proof.
  intros Hg. induction budget as [|budget IH]; intros text lastIndex out st HG Hout;
    cbn [loopResults nestedLoop] in *.
  - destruct (regex_exec text lastIndex); injection Hout as <-; exists text, st;
      (split; [reflexivity | split; [left; reflexivity | exact HG]]).
  - destruct (regex_exec text lastIndex) as [m|].
    + rewrite HG. destruct (G !! m_name m) as [e|].
      * destruct (results (m_name m)) as [rs|] eqn:Er; [|discriminate].
        destruct (Hg _ _ st HG Er) as (r & s' & -> & Hr & HG').
        destruct (collect_Some _ _ Hout
                    (loopResults G results budget (replace text (m_text m) r) 0))
          as (xs & Hxs & Hincl).
        { apply in_map_iff. exists r. split; [reflexivity | exact Hr]. }
        destruct (IH _ _ _ s' HG' Hxs) as (r' & st' & E & Hin & HG'').
        exists r', st'. split; [exact E|]. split; [apply Hincl, Hin | exact HG''].
      * apply IH; assumption.
    + injection Hout as <-. exists text, st.
      split; [reflexivity | split; [left; reflexivity | exact HG]].
Qed.

(** [generate] returns one of the listed strings. *)
Lemma possibleResults_sound (G : gmap string GeneratorEntry) :
  forall (fuel : nat) (name : string) (rs : list string) (recordHistory : bool) (st : t),
    generators st = G ->
    possibleResults G fuel name = Some rs ->
    exists r st',
      generate random dateNow fuel name recordHistory st = Returned (r, st') /\
      In r rs /\ generators st' = G.
Proof.
  induction fuel as [|fuel IH]; intros name rs recordHistory st HG Hrs; [discriminate|].
  rewrite generate_unfold. cbn [possibleResults] in Hrs.
  rewrite HG. destruct (G !! name) as [e|]; [|discriminate].
  assert (Hitem : exists item st1,
             selectRandomItem random (items e) st = (item, st1) /\
             In item (match items e with [] => ["Empty generator"] | its => its end) /\
             generators st1 = G).
  { unfold selectRandomItem. destruct (items e) as [|first rest].
    - exists "Empty generator", st. split; [reflexivity|]. split; [left; reflexivity | exact HG].
    - eexists _, _. split; [reflexivity|]. split; [|exact HG].
      apply nth_In. apply floorRandom_lt. cbn. lia. }
  destruct Hitem as (item & st1 & -> & Hin & HG1).
  destruct (collect_Some _ _ Hrs
              (loopResults G (possibleResults G fuel) maxIterations item 0))
    as (xs & Hxs & Hincl).
  { apply in_map_iff. exists item. split; [reflexivity | exact Hin]. }
  unfold processNestedGenerators.
  destruct (loopResults_sound G (possibleResults G fuel)
              (fun n s => generate random dateNow fuel n false s)
              (fun n rs' s Hs Hn => IH n rs' false s Hs Hn)
              maxIterations item 0%nat xs st1 HG1 Hxs)
    as (r & st2 & -> & Hr & HG2).
  destruct recordHistory.
  - eexists _, _. split; [reflexivity|]. split; [apply Hincl, Hr | exact HG2].
  - exists r, st2. split; [reflexivity|]. split; [apply Hincl, Hr | exact HG2].
Qed.

(** A result obtained within some depth of calls is obtained within
    every larger one. *)
Lemma nestedLoop_mono (g g' : string -> t -> outcome (string * t)) :
  (forall n s x, g n s = Returned x -> g' n s = Returned x) ->
  forall (budget : nat) (text : string) (lastIndex : nat) (st : t) (x : string * t),
    nestedLoop g budget text lastIndex st = Returned x ->
    nestedLoop g' budget text lastIndex st = Returned x.
Proof.
  intros Hg. induction budget as [|budget IH]; intros text lastIndex st x;
    cbn [nestedLoop].
  - intros H. exact H.
  - destruct (regex_exec text lastIndex) as [m|]; [|intros H; exact H].
    destruct (generators st !! m_name m); [|apply IH].
    destruct (g (m_name m) st) as [[r s']| |] eqn:E; try discriminate.
    rewrite (Hg _ _ _ E). apply IH.
Qed.

Lemma generate_mono (fuel : nat) :
  forall (name : string) (recordHistory : bool) (st : t) (x : string * t),
    generate random dateNow fuel name recordHistory st = Returned x ->
    generate random dateNow (S fuel) name recordHistory st = Returned x.
Proof.
  induction fuel as [|fuel IH]; intros name recordHistory st x; [discriminate|].
  rewrite (generate_unfold random dateNow fuel), (generate_unfold random dateNow (S fuel)).
  destruct (generators st !! name) as [e|]; [|discriminate].
  destruct (selectRandomItem random (items e) st) as [item st1].
  unfold processNestedGenerators.
  destruct (nestedLoop (fun n s => generate random dateNow fuel n false s)
              maxIterations item 0 st1) as [[r s2]| |] eqn:E; try discriminate.
  rewrite (nestedLoop_mono _ (fun n s => generate random dateNow (S fuel) n false s)
             (fun n s y => IH n false s y) _ _ _ _ _ E).
  intros H. exact H.
Qed.

Lemma generate_mono_add (k fuel : nat) (name : string) (recordHistory : bool) (st : t)
    (x : string * t) :
  generate random dateNow fuel name recordHistory st = Returned x ->
  generate random dateNow (k + fuel) name recordHistory st = Returned x.
Proof.
  intros H. induction k as [|k IH]; [exact H|]. apply generate_mono. exact IH.
Qed.

Lemma returnsOn_ret {A : Type} (G : gmap string GeneratorEntry) (a : A) :
  returnsOn G (ret a).
Proof. intros st HG. exists a, st. split; [reflexivity | exact HG]. Qed.

Lemma returnsOn_bind {A B : Type} (G : gmap string GeneratorEntry) (c : M A) (k : A -> M B) :
  returnsOn G c -> (forall a, returnsOn G (k a)) -> returnsOn G (bind c k).
Proof.
  intros Hc Hk st HG. destruct (Hc st HG) as (a & st1 & E & HG1).
  destruct (Hk a st1 HG1) as (b & st2 & E2 & HG2).
  exists b, st2. unfold bind. rewrite E. split; [exact E2 | exact HG2].
Qed.

Lemma returnsOn_mathRandom (G : gmap string GeneratorEntry) :
  returnsOn G (mathRandom random).
Proof. intros st HG. eexists _, _. split; [reflexivity | exact HG]. Qed.

Lemma returnsOn_randomInt (G : gmap string GeneratorEntry) (n : nat) (k : Z) :
  returnsOn G (randomInt random n k).
Proof. intros st HG. eexists _, _. split; [reflexivity | exact HG]. Qed.

Lemma returnsOn_pick (G : gmap string GeneratorEntry) (its : list string) :
  returnsOn G (pick random its).
Proof.
  intros st HG. unfold pick, selectRandomItem. destruct its as [|first rest].
  - exists "Empty generator", st. split; [reflexivity | exact HG].
  - eexists _, _. split; [reflexivity | exact HG].
Qed.

Lemma defaults_checked : forallb checked (map fst defaultGenerators) = true.
Proof. vm_compute. reflexivity. Qed.

Lemma returnsOn_gen (fuel : nat) (name : string) :
  (2 <= fuel)%nat ->
  checked name = true ->
  returnsOn (generators create) (gen random dateNow fuel name).
Proof.
  intros Hfuel Hname st HG. unfold checked in Hname.
  destruct (possibleResults (generators create) 2 name) as [rs|] eqn:Hrs; [|discriminate].
  destruct (possibleResults_sound _ 2%nat name rs true st HG Hrs) as (r & st' & E & _ & HG').
  exists r, st'. split; [|exact HG'].
  unfold gen. replace fuel with (fuel - 2 + 2)%nat by lia.
  apply generate_mono_add. exact E.
Qed.

Ltac returns :=
  repeat first
    [ apply returnsOn_ret
    | apply returnsOn_mathRandom
    | apply returnsOn_randomInt
    | apply returnsOn_pick
    | apply returnsOn_gen; [assumption | vm_compute; reflexivity]
    | apply returnsOn_bind; [|intros ?]
    | match goal with
      | |- returnsOn _ (if ?b then _ else _) => destruct b
      end ].

(** X26.  On the default tables no expansion fails: at every call
    depth of at least 2, [generate] returns for each of the 19 default
    pools whatever the random values are, and so do the four builders. *)
Theorem defaults_always_return (fuel : nat) (st : t) :
  generators st = generators create ->
  (2 <= fuel)%nat ->
  (forall name recordHistory,
      In name (map fst defaultGenerators) ->
      exists result st',
        generate random dateNow fuel name recordHistory st = Returned (result, st')) /\
  (exists encounter st',
      generateCompleteEncounter random dateNow fuel st = Returned (encounter, st')) /\
  (exists boss st', generateBossEncounter random dateNow fuel st = Returned (boss, st')) /\
  (exists quest st', generateQuest random dateNow fuel st = Returned (quest, st')) /\
  (exists card st', generateCustomCard random dateNow fuel st = Returned (card, st')).
Proof.
  intros HG Hfuel.
  assert (Hdone : forall (A : Type) (c : M A),
             returnsOn (generators create) c -> exists a st', c st = Returned (a, st')).
  { intros A c Hc. destruct (Hc st HG) as (a & st' & E & _). exists a, st'. exact E. }
  split; [|split; [|split; [|split]]].
  - intros name recordHistory Hname.
    pose proof defaults_checked as Hall. rewrite forallb_forall in Hall.
    specialize (Hall name Hname). unfold checked in Hall.
    destruct (possibleResults (generators create) 2 name) as [rs|] eqn:Hrs; [|discriminate].
    destruct (possibleResults_sound _ 2%nat name rs recordHistory st HG Hrs)
      as (r & st' & E & _ & _).
    exists r, st'. replace fuel with (fuel - 2 + 2)%nat by lia.
    apply generate_mono_add. exact E.
  - apply Hdone. unfold generateCompleteEncounter. returns.
  - apply Hdone. unfold generateBossEncounter. returns.
  - apply Hdone. unfold generateQuest. returns.
  - apply Hdone. unfold generateCustomCard. returns.
Qed.

End Defaults.

Lemma defaults_always_return_witness :
  (forall name recordHistory,
      In name (map fst defaultGenerators) ->
      exists result st',
        generate Samples.alternating Samples.clock 2 name recordHistory create
        = Returned (result, st')) /\
  (exists encounter st',
      generateCompleteEncounter Samples.alternating Samples.clock 2 create
      = Returned (encounter, st')) /\
  (exists boss st',
      generateBossEncounter Samples.alternating Samples.clock 2 create
      = Returned (boss, st')) /\
  (exists quest st',
      generateQuest Samples.alternating Samples.clock 2 create = Returned (quest, st')) /\
  (exists card st',
      generateCustomCard Samples.alternating Samples.clock 2 create
      = Returned (card, st')).
Proof.
  apply (defaults_always_return Samples.alternating Samples.clock 2 create).
  - reflexivity.
  - lia.
Defined.

End CompositeProps.

(** ** AI content layer: derived content and the story log *)

Module NarrativeProps.
Import AI Narrative.

(** X10.  [scaleDifficulty] always returns a difficulty between 1 and
    5, at most one step away from the base difficulty clamped to that
    range. *)
Theorem scaleDifficulty_range (baseDifficulty : Z) (p : Personality) :
  1 <= scaleDifficulty baseDifficulty p <= 5 /\
  Z.max 1 (Z.min 5 baseDifficulty) - 1
  <= scaleDifficulty baseDifficulty p
  <= Z.max 1 (Z.min 5 baseDifficulty) + 1.
Proof.
  unfold scaleDifficulty.
  destruct (gt (danger p) 0.7); [|destruct (lt (danger p) 0.4)]; lia.
Qed.

(** The story log. *)

Lemma recordStoryEvent_entry {E : Type} (e : StoryEvent E) (log : list (StoryEvent E)) :
  recordStoryEvent (se_timestamp e) (se_event e) (se_personality e) log
  = if (50 <? List.length (log ++ [e]))%nat then tail (log ++ [e]) else log ++ [e].
Proof. destruct e. reflexivity. Qed.

Lemma recordAll_snoc {E : Type} (events : list (StoryEvent E)) (e : StoryEvent E)
    (log : list (StoryEvent E)) :
  recordAll (events ++ [e]) log
  = recordStoryEvent (se_timestamp e) (se_event e) (se_personality e) (recordAll events log).
Proof. unfold recordAll. rewrite fold_left_app. reflexivity. Qed.

(** The log after recording [events], oldest first. *)
Lemma recordAll_drop {E : Type} (events : list (StoryEvent E)) :
  recordAll events [] = drop (List.length events - 50) events.
Proof.
  induction events as [|e events IH] using rev_ind; [reflexivity|].
  rewrite recordAll_snoc, recordStoryEvent_entry, IH.
  rewrite !List.length_app, length_drop. cbn [List.length].
  destruct (Nat.ltb_spec 50 (List.length events - (List.length events - 50) + 1))
    as [Hfull|Hroom].
  - assert (Hn : (50 <= List.length events)%nat) by lia.
    change (tail (drop (List.length events - 50) events ++ [e]))
      with (drop 1 (drop (List.length events - 50) events ++ [e])).
    rewrite drop_app_le by (rewrite length_drop; lia).
    rewrite drop_drop.
    rewrite (drop_app_le events [e]) by lia.
    f_equal. f_equal. lia.
  - assert (Hn : (List.length events < 50)%nat) by lia.
    replace (List.length events - 50)%nat with 0%nat by lia.
    replace (List.length events + 1 - 50)%nat with 0%nat by lia.
    reflexivity.
Qed.

(** X11.  The story log is bounded: after any number of recorded
    events it holds the 50 most recent ones, oldest first, and all of
    them while there are at most 50. *)
Theorem recordAll_keeps_last_fifty {E : Type} (events : list (StoryEvent E)) :
  recordAll events [] = drop (List.length events - 50) events /\
  List.length (recordAll events []) = Nat.min (List.length events) 50.
Proof.
  split; [apply recordAll_drop|].
  rewrite recordAll_drop, length_drop. lia.
Qed.

(** X12.  The recent events of [getStoryContext] are the 10 most
    recently recorded ones, oldest first. *)
Theorem recentEvents_last_ten {E : Type} (events : list (StoryEvent E)) :
  recentEvents (recordAll events []) = drop (List.length events - 10) events.
Proof.
  unfold recentEvents. rewrite recordAll_drop, length_drop, drop_drop.
  f_equal. lia.
Qed.

(** X13.  [generateSpecialMechanics] returns at most two mechanics and
    never an undefined entry; each is High Stakes or one of the five
    catalog mechanics, and High Stakes is among them exactly when
    [danger > 0.8]. *)
Theorem generateSpecialMechanics_shape (p : Personality) (r : unitQ) :
  (List.length (generateSpecialMechanics p r) <= 2)%nat /\
  Forall (fun entry =>
            exists m, entry = Some m /\ (m = highStakes \/ In m specialMechanics))
         (generateSpecialMechanics p r) /\
  (In (Some highStakes) (generateSpecialMechanics p r) <-> gt (danger p) 0.8 = true).
Proof.
  unfold generateSpecialMechanics.
  destruct (lookup_lt_is_Some_2 specialMechanics
              (floorRandom r (List.length specialMechanics))) as [m Hm];
    [apply floorRandom_lt; cbn; lia|].
  assert (Hin : In m specialMechanics).
  { apply list_elem_of_In, list_elem_of_lookup. eauto. }
  assert (Hne : m <> highStakes).
  { intros ->. cbn in Hin. repeat (destruct Hin as [Hin|Hin]; [discriminate Hin|]).
    exact Hin. }
  rewrite Hm.
  destruct (gt (creativity p) 0.7); destruct (gt (danger p) 0.8); cbn [app List.length].
  - split; [lia|]. split.
    + repeat constructor; eexists; split; eauto.
    + split; [reflexivity|]. intros _. right. left. reflexivity.
  - split; [lia|]. split.
    + repeat constructor; eexists; split; eauto.
    + split; [|discriminate]. intros [H|[]]. congruence.
  - split; [lia|]. split.
    + repeat constructor; eexists; split; eauto.
    + split; [reflexivity|]. intros _. left. reflexivity.
  - split; [lia|]. split; [constructor|]. split; [intros []|discriminate].
Qed.

Lemma lt_true (a b : Q) : lt a b = true <-> (a < b)%Q.
Proof.
  unfold lt. rewrite negb_true_iff. split.
  - intros H. apply Qnot_le_lt. intros Hle. apply Qle_bool_iff in Hle. congruence.
  - intros H. destruct (Qle_bool b a) eqn:E; [|reflexivity].
    apply Qle_bool_iff in E. exfalso. exact (Qlt_not_le _ _ H E).
Qed.

(** X14.  [generateEnvironment] returns one of the four catalog
    environments when the first random value is below the creativity,
    and null otherwise; with creativity 0 it always returns null. *)
Theorem generateEnvironment_cases (p : Personality) (r1 r2 : unitQ) :
  match Qlt_le_dec r1 (creativity p) with
  | left _ => exists env, generateEnvironment p r1 r2 = Some env /\ In env environments
  | right _ => generateEnvironment p r1 r2 = None
  end.
Proof.
  unfold generateEnvironment.
  destruct (Qlt_le_dec r1 (creativity p)) as [Hlt|Hle].
  - apply lt_true in Hlt. rewrite Hlt.
    destruct (lookup_lt_is_Some_2 environments
                (floorRandom r2 (List.length environments))) as [env Henv];
      [apply floorRandom_lt; cbn; lia|].
    exists env. split; [exact Henv|].
    apply list_elem_of_In, list_elem_of_lookup. eauto.
  - destruct (lt r1 (creativity p)) eqn:E; [|reflexivity].
    apply lt_true in E. exfalso. exact (Qlt_not_le _ _ E Hle).
Qed.

(** X15.  [generateDynamicObjectives] returns between one and three
    objectives, none completed; the first is the objective of the base
    quest and it is the only primary one. *)
Theorem generateDynamicObjectives_shape (objective : string) (p : Personality) :
  (1 <= List.length (generateDynamicObjectives objective p) <= 3)%nat /\
  head (generateDynamicObjectives objective p)
  = Some (mkObjective objective false true None) /\
  List.filter obj_primary (generateDynamicObjectives objective p)
  = [mkObjective objective false true None] /\
  Forall (fun o => obj_completed o = false) (generateDynamicObjectives objective p).
Proof.
  unfold generateDynamicObjectives.
  destruct (gt (creativity p) 0.6); destruct (gt (danger p) 0.7); cbn;
    (split; [lia|]); (split; [reflexivity|]); (split; [reflexivity|]);
    repeat constructor.
Qed.

(** Whatever key is asked for, the personality that [setPersonality]
    leaves resolves to a truthy value. *)
Lemma setPersonality_resolves (key : string) (ai : t) :
  truthy (getPersonality (setPersonality key ai)) = true.
Proof.
  unfold setPersonality, getPersonality.
  destruct (truthy (lookup key)) eqn:E; [exact E | reflexivity].
Qed.

(** X16.  Once the personality resolves, [generatePlayerSuggestion]
    returns at most three suggestions and never both a risky and a
    defensive one; it suggests the aggressive action exactly when a
    boss health is given that is not 0 and below 30. *)
Theorem generatePlayerSuggestion_shape (gs : Situation) (ai : t) :
  truthy (getPersonality ai) = true ->
  exists l,
    generatePlayerSuggestion gs ai = Returned l /\
    (List.length l <= 3)%nat /\
    ~ (In "risky" (map action l) /\ In "defensive" (map action l)) /\
    (In "aggressive" (map action l)
     <-> exists h, bossHealth gs = Some h /\ h <> 0 /\ h < 30).
Proof.
  intros Htruthy. unfold generatePlayerSuggestion.
  assert (Hd : exists d, dangerous (getPersonality ai) = Returned d).
  { destruct (getPersonality ai); cbn in *; [eauto | eauto | discriminate]. }
  destruct Hd as [d Hd]. rewrite Hd.
  assert (Hboss : forall h, (negb (h =? 0) && (h <? 30)) = true <-> (h <> 0 /\ h < 30)).
  { intros h. rewrite andb_true_iff, negb_true_iff, Z.eqb_neq, Z.ltb_lt. reflexivity. }
  destruct (bossHealth gs) as [h|] eqn:Hh.
  - destruct (negb (h =? 0) && (h <? 30)) eqn:Hb;
      destruct (below (playerHealth gs) 10); destruct (above (handSize gs) 7);
      try destruct d; eexists; (split; [reflexivity|]); cbn;
      (split; [lia|]); (split; [intros [H1 H2]; intuition discriminate|]);
      split;
      try (intros _; left; reflexivity);
      try (intros _; exists h; split; [reflexivity | apply Hboss; exact Hb]);
      try (intros H; exfalso; intuition discriminate);
      try (intros (h' & [= <-] & Hne & Hlt);
           assert (Hc : (negb (h =? 0) && (h <? 30)) = true) by (apply Hboss; split; assumption);
           congruence).
  - destruct (below (playerHealth gs) 10); destruct (above (handSize gs) 7);
      try destruct d; eexists; (split; [reflexivity|]); cbn;
      (split; [lia|]); (split; [intros [H1 H2]; intuition discriminate|]);
      split;
      try (intros H; exfalso; intuition discriminate);
      try (intros (h' & Hsome & _); discriminate Hsome).
Qed.

Lemma generatePlayerSuggestion_shape_witness :
  exists l,
    generatePlayerSuggestion (mkSituation (Some 0) (Some 5) (Some 8)) init = Returned l /\
    (List.length l <= 3)%nat /\
    ~ (In "risky" (map action l) /\ In "defensive" (map action l)) /\
    (In "aggressive" (map action l)
     <-> exists h,
           bossHealth (mkSituation (Some 0) (Some 5) (Some 8)) = Some h /\
           h <> 0 /\ h < 30).
Proof.
  apply (generatePlayerSuggestion_shape (mkSituation (Some 0) (Some 5) (Some 8)) init).
  reflexivity.
Defined.

(** X17.  [setPersonality] with one of the four catalog keys selects
    it: the current personality is that key, [getPersonality] returns
    the trait vector filed under it, and the console gets one log
    line and no warning. *)
Theorem setPersonality_catalog (key : string) (ai : t) :
  In key catalogKeys ->
  personality (setPersonality key ai) = key /\
  (exists p, getPersonality (setPersonality key ai) = Own p /\ In (key, p) personalities) /\
  console (setPersonality key ai)
  = console ai ++ [(log, "AI Personality set to: " +:+ key)].
Proof.
  intros Hkey. cbn in Hkey.
  destruct Hkey as [<-|[<-|[<-|[<-|[]]]]];
    (split; [reflexivity|]); (split; [|reflexivity]);
    eexists; (split; [reflexivity|]); cbn; tauto.
Qed.

Lemma setPersonality_catalog_witness :
  personality (setPersonality "reckless" init) = "reckless" /\
  (exists p,
      getPersonality (setPersonality "reckless" init) = Own p /\
      In ("reckless", p) personalities) /\
  console (setPersonality "reckless" init)
  = console init ++ [(log, "AI Personality set to: " +:+ "reckless")].
Proof.
  apply (setPersonality_catalog "reckless" init).
  cbn. tauto.
Defined.

End NarrativeProps.

(** ** Game state store: invariants of the state tree *)

Module StatsProps.
Import Store Stats.

(** The state an operation leaves, as the updates it passes to
    [updateState]. *)
Lemma step_updates (op : Op) (st st' : t) :
  step op st = Returned st' ->
  match op with
  | LoadGame saveData => sd_state saveData = Some (state st')
  | SaveGame _ => state st' = state st
  | ResetGame =>
      state st' = mkState "menu" 0 [] None None None [] [] [] (gameSettings (state st))
  | StartNewGame _ =>
      exists ps,
        state st'
        = merge (state st)
            (mkUpdates (Some "playing") (Some 1) (Some ps) (Some None) (Some None)
                       (Some (Some "Starting Village")) (Some []) (Some []) (Some []) None)
  | StartBossEncounter _ =>
      state st'
      = merge (state st)
          (mkUpdates (Some "boss") None None (Some (Some (next st))) (Some None)
                     None None None None None)
  | StartEncounter encounter =>
      state st'
      = merge (state st)
          (mkUpdates (Some "encounter") None None (Some None) (Some (Some encounter))
                     None None None None None)
  | DamageBoss _ =>
      exists boss,
        currentBoss (state st) = Some boss /\
        (state st' = state st \/
         exists (victory : bool) (ids : list string),
           state st'
           = merge (state st)
               (mkUpdates (Some (if victory then "victory" else "playing")) None None
                          (Some None) None None None None (Some ids) None))
  | DefeatBoss =>
      exists (boss : loc) (victory : bool) (ids : list string),
        currentBoss (state st) = Some boss /\
        state st'
        = merge (state st)
            (mkUpdates (Some (if victory then "victory" else "playing")) None None
                       (Some None) None None None None (Some ids) None)
  | AddCardToHand _ _ | PlayCard _ _ _ =>
      exists ps, state st' = merge (state st) (only_players ps)
  | AddToInventory _ _ _ =>
      exists inv,
        state st'
        = merge (state st)
            (mkUpdates None None None None None None (Some inv) None None None)
  | AddQuest quest now suffix =>
      state st'
      = merge (state st)
          (only_quests
             (quests (state st)
                ++ [Quest.mk (Some (freshId "quest" now suffix)) (Quest.title quest)
                      (Quest.objective quest) (Some "active") (Some 0)
                      (Quest.rewards quest)]))
  | UpdateQuestProgress questId progress =>
      state st' = state (updateQuestProgress questId progress st)
  | ChangeLocation newLocation =>
      state st'
      = merge (state st)
          (mkUpdates None None None None None (Some (Some newLocation)) None None None None)
  | UpdateSettings settings =>
      state st'
      = merge (state st)
          (mkUpdates None None None None None None None None None
                     (Some (settings ∪ gameSettings (state st))))
  end.
Proof.
  destruct op; cbn [step]; intros Hstep;
    try (injection Hstep as <-; first [reflexivity | eexists; reflexivity]).
  - unfold loadGame in Hstep. destruct (sd_state saveData) as [s|]; [|discriminate].
    injection Hstep as <-. reflexivity.
  - unfold startBossEncounter in Hstep.
    destruct boss as [id|b]; [destruct (findBoss id st) as [[k l]|]; [|discriminate]|];
      injection Hstep as <-; reflexivity.
  - unfold damageBoss in Hstep.
    destruct (currentBoss (state st)) as [boss|] eqn:Hboss; [|discriminate].
    exists boss. split; [reflexivity|].
    match type of Hstep with (if ?c then _ else _) = _ => destruct c end.
    + right. unfold defeatBoss in Hstep. cbn [with_heap state] in Hstep.
      rewrite Hboss in Hstep. injection Hstep as <-.
      destruct (findBoss _ _) as [[k l]|]; eexists _, _; reflexivity.
    + left. injection Hstep as <-. cbn [notifyObservers updateState state with_heap].
      destruct (state st); cbn in *. subst. reflexivity.
  - unfold defeatBoss in Hstep.
    destruct (currentBoss (state st)) as [boss|] eqn:Hboss; [|discriminate].
    injection Hstep as <-.
    destruct (findBoss _ _) as [[k l]|]; eexists _, _, _; split; reflexivity.
Qed.

(** An invariant of the steps that a run is allowed to take is an
    invariant of the run. *)
Lemma run_invariant (P : t -> Prop) (allowed : Op -> bool) :
  (forall op st st', allowed op = true -> P st -> step op st = Returned st' -> P st') ->
  forall (ops : list Op) (st st' : t),
    forallb allowed ops = true -> P st -> run ops st = Returned st' -> P st'.
Proof.
  intros Hstep. induction ops as [|op ops IH]; intros st st' Hall HP Hrun.
  - injection Hrun as <-. exact HP.
  - cbn [forallb] in Hall. apply andb_prop in Hall as [Hop Hall].
    cbn [run] in Hrun. destruct (step op st) as [st1| |] eqn:Hst; try discriminate.
    eapply IH; [exact Hall | | exact Hrun]. eapply Hstep; eauto.
Qed.

(** Quests. *)

Lemma new_quest_consistent (i : option string) (title objective : string)
    (rewards : list string) :
  questConsistent (Quest.mk i title objective (Some "active") (Some 0) rewards).
Proof. exists 0. split; reflexivity. Qed.

Lemma updated_quests_consistent (questId : string) (progress : Z) (st : t) :
  Forall questConsistent (quests (state st)) ->
  Forall questConsistent (quests (state (updateQuestProgress questId progress st))).
Proof.
  intros H. cbn [updateQuestProgress notifyObservers updateState state merge quests
                 u_quests default from_option id].
  cbn. induction H as [|q qs Hq _ IH]; [constructor|].
  cbn [map]. constructor; [|exact IH].
  destruct (Quest.id q) as [i|]; [|exact Hq].
  destruct (String.eqb i questId); [|exact Hq].
  exists progress. split; reflexivity.
Qed.

Lemma step_keeps_quests_consistent (op : Op) (st st' : t) :
  notLoadGame op = true ->
  Forall questConsistent (quests (state st)) ->
  step op st = Returned st' ->
  Forall questConsistent (quests (state st')).
Proof.
  intros Hop HP Hstep. pose proof (step_updates op st st' Hstep) as Hst.
  destruct op; try discriminate Hop;
    repeat match type of Hst with
           | exists _, _ => destruct Hst as [? Hst]
           | _ /\ _ => destruct Hst as [_ Hst]
           | _ \/ _ => destruct Hst as [Hst|Hst]
           end;
    rewrite Hst; try exact HP; try constructor.
  - cbn. apply Forall_app. split; [exact HP|]. constructor; [|constructor].
    apply new_quest_consistent.
  - apply updated_quests_consistent. exact HP.
Qed.

Lemma quests_partition (qs : list Quest.t) :
  Forall questConsistent qs ->
  (List.length (List.filter (hasStatus "active") qs)
   + List.length (List.filter (hasStatus "completed") qs))%nat
  = List.length qs.
Proof.
  induction 1 as [|q qs (progress & _ & Hstatus) _ IH]; [reflexivity|].
  assert (Hq : hasStatus "active" q = negb (100 <=? progress) /\
               hasStatus "completed" q = (100 <=? progress)).
  { unfold hasStatus. rewrite Hstatus. destruct (100 <=? progress); split; reflexivity. }
  destruct Hq as [Hactive Hcompleted].
  cbn [List.filter]. rewrite Hactive, Hcompleted.
  destruct (100 <=? progress); cbn [negb List.length]; lia.
Qed.

(** X18.  As long as no saved game is loaded, the quests keep the rule
    of [updateQuestProgress]: each stored quest has a progress, and its
    status is [completed] if that progress is at least 100 and [active]
    otherwise.  The statistics then count every quest once, as active
    or as completed. *)
Theorem quests_stay_consistent (ops : list Op) (st st' : t) :
  forallb notLoadGame ops = true ->
  Forall questConsistent (quests (state st)) ->
  run ops st = Returned st' ->
  Forall questConsistent (quests (state st')) /\
  (activeQuests (getGameStats st') + completedQuests (getGameStats st'))%nat
  = List.length (quests (state st')).
Proof.
  intros Hops HP Hrun.
  assert (H : Forall questConsistent (quests (state st'))).
  { eapply (run_invariant (fun s => Forall questConsistent (quests (state s))) notLoadGame);
      eauto using step_keeps_quests_consistent. }
  split; [exact H|]. apply quests_partition. exact H.
Qed.

Lemma quests_stay_consistent_witness :
  Forall questConsistent (quests (state afterSession)) /\
  (activeQuests (getGameStats afterSession) + completedQuests (getGameStats afterSession))%nat
  = List.length (quests (state afterSession)).
Proof.
  apply (quests_stay_consistent session create afterSession).
  - reflexivity.
  - constructor.
  - vm_compute. reflexivity.
Defined.

(** Phases. *)

Lemma step_keeps_coherent (op : Op) (st st' : t) :
  notLoadGame op = true ->
  coherent (state st) ->
  step op st = Returned st' ->
  coherent (state st').
Proof.
  intros Hop (Hboss & Henc & Hphase) Hstep.
  pose proof (step_updates op st st' Hstep) as Hst.
  destruct op; try discriminate Hop;
    repeat match type of Hst with
           | exists _, _ => destruct Hst as [? Hst]
           | _ /\ _ => let Hc := fresh "Hcurrent" in destruct Hst as [Hc Hst]
           | _ \/ _ => destruct Hst as [Hst|Hst]
           end;
    rewrite Hst; unfold coherent; cbn;
    try (repeat split; solve [ assumption | apply Hboss | apply Henc
                             | intros; congruence | intros; discriminate | tauto ]).
  - (* damageBoss, lethal *)
    assert (Hb : gamePhase (state st) = "boss") by (apply Hboss; congruence).
    assert (He : currentEncounter (state st) = None).
    { destruct (currentEncounter (state st)) eqn:E; [|reflexivity].
      assert (gamePhase (state st) = "encounter") by (apply Henc; discriminate).
      congruence. }
    rewrite He. destruct x0; repeat split; try congruence; try discriminate; tauto.
  - (* defeatBoss *)
    assert (Hb : gamePhase (state st) = "boss") by (apply Hboss; congruence).
    assert (He : currentEncounter (state st) = None).
    { destruct (currentEncounter (state st)) eqn:E; [|reflexivity].
      assert (gamePhase (state st) = "encounter") by (apply Henc; discriminate).
      congruence. }
    rewrite He. destruct x0; repeat split; try congruence; try discriminate; tauto.
Qed.

(** X19.  As long as no saved game is loaded, the phase agrees with
    the rest of the state: a boss is current exactly in phase [boss],
    an encounter exactly in phase [encounter]; and the phase is one of
    menu, playing, encounter, boss and victory, never [defeat]. *)
Theorem phase_stays_coherent (ops : list Op) (st st' : t) :
  forallb notLoadGame ops = true ->
  coherent (state st) ->
  run ops st = Returned st' ->
  coherent (state st') /\ gamePhase (state st') <> "defeat".
Proof.
  intros Hops HP Hrun.
  assert (H : coherent (state st')).
  { eapply (run_invariant (fun s => coherent (state s)) notLoadGame);
      eauto using step_keeps_coherent. }
  split; [exact H|]. destruct H as (_ & _ & Hphase).
  intros Hdefeat. rewrite Hdefeat in Hphase. cbn in Hphase.
  repeat (destruct Hphase as [Hphase|Hphase]; [discriminate Hphase|]). exact Hphase.
Qed.

Lemma create_coherent : coherent (state create).
Proof.
  unfold coherent. cbn. repeat split; try congruence; try discriminate; tauto.
Qed.

Lemma phase_stays_coherent_witness :
  coherent (state afterSession) /\ gamePhase (state afterSession) <> "defeat".
Proof.
  apply (phase_stays_coherent session create afterSession).
  - reflexivity.
  - exact create_coherent.
  - vm_compute. reflexivity.
Defined.

(** Settings. *)

Lemma step_keeps_settings (g : gmap string Prim) (op : Op) (st st' : t) :
  keepsSettings op = true ->
  gameSettings (state st) = g ->
  step op st = Returned st' ->
  gameSettings (state st') = g.
Proof.
  intros Hop HP Hstep. pose proof (step_updates op st st' Hstep) as Hst.
  destruct op; try discriminate Hop;
    repeat match type of Hst with
           | exists _, _ => destruct Hst as [? Hst]
           | _ /\ _ => destruct Hst as [_ Hst]
           | _ \/ _ => destruct Hst as [Hst|Hst]
           end;
    rewrite Hst; exact HP.
Qed.

(** X20.  The settings change only through [updateSettings] and
    [loadGame]: every other operation, [startNewGame] and [resetGame]
    included, leaves the settings record as it is. *)
Theorem settings_survive (ops : list Op) (st st' : t) :
  forallb keepsSettings ops = true ->
  run ops st = Returned st' ->
  gameSettings (state st') = gameSettings (state st).
Proof.
  intros Hops Hrun.
  eapply (run_invariant (fun s => gameSettings (state s) = gameSettings (state st))
                        keepsSettings);
    eauto using step_keeps_settings.
Qed.

Lemma settings_survive_witness :
  gameSettings (state afterSession) = gameSettings (state create).
Proof.
  apply (settings_survive session create afterSession).
  - reflexivity.
  - vm_compute. reflexivity.
Defined.

(** Observers. *)

Lemma callees_of_notification (s : State) (c : Change) (obs : list Callback) :
  map callee (map (fun k => mkCall k s c) obs) = obs.
Proof. induction obs as [|k obs IH]; [reflexivity|]. cbn. rewrite IH. reflexivity. Qed.

(** X21.  An operation that returns notifies the observers in the
    order of their subscription: first every observer with the
    [state_update] change, which holds the previous state, the new
    state and the updates, then every observer with the operation's own
    typed change; [loadGame], [saveGame] and [resetGame] make the
    second round only.  Every call passes the state as the operation
    leaves it.  A callback that is subscribed k times is so called 2k
    times (k times by those three), and not at all when it is not
    subscribed; the subscriptions are as before. *)
Theorem notifications_follow_subscriptions (op : Op) (st st' : t) :
  step op st = Returned st' ->
  exists (updates : Updates) (typed : Change) (made : list Call),
    calls st' = calls st ++ made /\
    made
    = (if viaUpdateState op
       then map (fun callback =>
                   mkCall callback (state st')
                          (state_update (state st) (state st') updates))
                (observers st)
       else [])
      ++ map (fun callback => mkCall callback (state st') typed) (observers st) /\
    changeType typed ∈ typedEvents op /\
    observers st' = observers st /\
    map callee made
    = (if viaUpdateState op then observers st else []) ++ observers st /\
    forall callback,
      List.length (callsTo callback made)
      = (count_occ Nat.eq_dec (observers st) callback
         * (if viaUpdateState op then 2 else 1))%nat.
Proof.
  intros Hstep.
  destruct (StoreProps.step_notifications op st st' Hstep)
    as (updates & typed & Hobs & Hcalls & Htype).
  exists updates, typed. eexists. split; [exact Hcalls|].
  split; [reflexivity|]. split; [exact Htype|]. split; [exact Hobs|]. split.
  - rewrite map_app, callees_of_notification.
    destruct (viaUpdateState op); [rewrite callees_of_notification|]; reflexivity.
  - intros callback.
    rewrite StoreProps.callsTo_app, List.length_app,
      StoreProps.callsTo_notification, repeat_length.
    destruct (viaUpdateState op).
    + rewrite StoreProps.callsTo_notification, repeat_length. lia.
    + cbn. lia.
Qed.

Lemma notifications_follow_subscriptions_witness :
  exists (updates : Updates) (typed : Change) (made : list Call),
    calls (changeLocation "Forest" watched) = calls watched ++ made /\
    made
    = (if viaUpdateState (ChangeLocation "Forest")
       then map (fun callback =>
                   mkCall callback (state (changeLocation "Forest" watched))
                          (state_update (state watched)
                                        (state (changeLocation "Forest" watched)) updates))
                (observers watched)
       else [])
      ++ map (fun callback => mkCall callback (state (changeLocation "Forest" watched)) typed)
             (observers watched) /\
    changeType typed ∈ typedEvents (ChangeLocation "Forest") /\
    observers (changeLocation "Forest" watched) = observers watched /\
    map callee made
    = (if viaUpdateState (ChangeLocation "Forest") then observers watched else [])
      ++ observers watched /\
    forall callback,
      List.length (callsTo callback made)
      = (count_occ Nat.eq_dec (observers watched) callback
         * (if viaUpdateState (ChangeLocation "Forest") then 2 else 1))%nat.
Proof.
  apply (notifications_follow_subscriptions (ChangeLocation "Forest") watched
           (changeLocation "Forest" watched)).
  reflexivity.
Defined.

Lemma count_occ_unsubscribed (callback other : Callback) (obs : list Callback) :
  count_occ Nat.eq_dec
    (List.filter (fun o => negb (Nat.eqb o callback)) obs) other
  = if Nat.eqb other callback then 0%nat else count_occ Nat.eq_dec obs other.
Proof.
  induction obs as [|o obs IH]; cbn [List.filter count_occ].
  - destruct (Nat.eqb other callback); reflexivity.
  - destruct (Nat.eqb_spec o callback) as [->|Hne]; cbn [negb].
    + rewrite IH. destruct (Nat.eqb_spec other callback) as [->|Hother]; [reflexivity|].
      destruct (Nat.eq_dec callback other); [congruence | reflexivity].
    + cbn [count_occ]. rewrite IH.
      destruct (Nat.eqb_spec other callback) as [->|Hother];
        destruct (Nat.eq_dec o _); congruence.
Qed.

(** X22.  [unsubscribe] removes every subscription of the callback and
    leaves the other subscriptions in place; the next operation makes
    no call to it. *)
Theorem unsubscribe_silences (callback : Callback) (op : Op) (st st' : t) :
  step op (unsubscribe callback st) = Returned st' ->
  callsTo callback (calls st') = callsTo callback (calls st) /\
  count_occ Nat.eq_dec (observers st') callback = 0%nat /\
  forall other, other <> callback ->
    count_occ Nat.eq_dec (observers st') other
    = count_occ Nat.eq_dec (observers st) other.
Proof.
  intros Hstep.
  destruct (StoreProps.step_notifications op _ st' Hstep)
    as (updates & typed & Hobs & Hcalls & _).
  assert (Hzero : count_occ Nat.eq_dec (observers (unsubscribe callback st)) callback = 0%nat).
  { unfold unsubscribe. cbn [observers]. rewrite count_occ_unsubscribed, Nat.eqb_refl.
    reflexivity. }
  split; [|split].
  - rewrite Hcalls, !StoreProps.callsTo_app, StoreProps.callsTo_notification, Hzero.
    destruct (viaUpdateState op);
      [rewrite StoreProps.callsTo_notification, Hzero|]; cbn; rewrite ?app_nil_r; reflexivity.
  - rewrite Hobs. exact Hzero.
  - intros other Hother. rewrite Hobs. unfold unsubscribe. cbn [observers].
    rewrite count_occ_unsubscribed.
    apply Nat.eqb_neq in Hother. rewrite Hother. reflexivity.
Qed.

Lemma unsubscribe_silences_witness :
  callsTo 7%nat (calls (changeLocation "Forest" (unsubscribe 7%nat watched)))
  = callsTo 7%nat (calls watched) /\
  count_occ Nat.eq_dec
    (observers (changeLocation "Forest" (unsubscribe 7%nat watched))) 7%nat = 0%nat /\
  forall other, other <> 7%nat ->
    count_occ Nat.eq_dec
      (observers (changeLocation "Forest" (unsubscribe 7%nat watched))) other
    = count_occ Nat.eq_dec (observers watched) other.
Proof.
  apply (unsubscribe_silences 7%nat (ChangeLocation "Forest") watched
           (changeLocation "Forest" (unsubscribe 7%nat watched))).
  reflexivity.
Defined.

(** Damage. *)




(** The boss that is fought is a copy. *)

Lemma startBossEncounter_copy (arg : BossArg) (st st1 : t) :
  startBossEncounter arg st = Returned st1 ->
  currentBoss (state st1) = Some (next st) /\
  bosses (gameData st1) = bosses (gameData st) /\
  forall x, x <> next st -> heap st1 x = heap st x.
Proof.
  unfold startBossEncounter.
  destruct arg as [id|b]; [destruct (findBoss id st) as [[k l]|]; [|discriminate]|];
    cbn [option_map allocate]; intros [= <-];
    (split; [reflexivity|]); (split; [reflexivity|]);
    intros x Hx; cbn [notifyObservers updateState heap];
    apply Nat.eqb_neq in Hx; rewrite Hx; reflexivity.
Qed.

Lemma damageBoss_other_health (amount : Z) (st st' : t) (boss : loc) :
  currentBoss (state st) = Some boss ->
  damageBoss amount st = Returned st' ->
  bosses (gameData st') = bosses (gameData st) /\
  forall x, x <> boss ->
    Boss.health (heap st' x) = Boss.health (heap st x) /\
    Boss.maxHealth (heap st' x) = Boss.maxHealth (heap st x) /\
    Boss.id (heap st' x) = Boss.id (heap st x).
Proof.
  intros Hboss. unfold damageBoss. rewrite Hboss.
  set (st1 := with_heap _ st).
  assert (Ho : forall x, x <> boss -> heap st1 x = heap st x).
  { intros x Hx. subst st1. cbn [with_heap heap]. unfold mutate.
    apply Nat.eqb_neq in Hx. rewrite Hx. reflexivity. }
  destruct (Boss.health (heap st1 boss) <=? 0).
  - unfold defeatBoss. change (currentBoss (state st1)) with (currentBoss (state st)).
    rewrite Hboss. intros [= <-].
    destruct (findBoss _ st1) as [[k l]|].
    + split; [reflexivity|]. intros x Hx.
      destruct (StoreProps.mutate_defeated_frame true l x (heap st1)) as (Hi & Hh & Hm).
      rewrite <- (Ho x Hx).
      split; [exact Hh|]. split; [exact Hm | exact Hi].
    + split; [reflexivity|]. intros x Hx.
      rewrite <- (Ho x Hx). repeat split.
  - intros [= <-]. split; [reflexivity|]. intros x Hx.
    rewrite <- (Ho x Hx). repeat split.
Qed.

(** X24.  The boss of an encounter is a copy of the catalog boss:
    whatever damage is dealt to it, lethal or not, the catalog bosses
    keep their health, their maximum health and their ids. *)
Theorem damage_spares_catalog (arg : BossArg) (amount : Z) (st st1 st2 : t) :
  catalogAllocated st ->
  startBossEncounter arg st = Returned st1 ->
  damageBoss amount st1 = Returned st2 ->
  bosses (gameData st2) = bosses (gameData st) /\
  map Boss.health (getBosses st2) = map Boss.health (getBosses st) /\
  map Boss.maxHealth (getBosses st2) = map Boss.maxHealth (getBosses st) /\
  map Boss.id (getBosses st2) = map Boss.id (getBosses st).
Proof.
  intros Halloc Hstart Hdamage.
  destruct (startBossEncounter_copy arg st st1 Hstart) as (Hcur & Hb1 & Hh1).
  destruct (damageBoss_other_health amount st1 st2 (next st) Hcur Hdamage) as (Hb2 & Hh2).
  assert (Hb : bosses (gameData st2) = bosses (gameData st)) by congruence.
  split; [exact Hb|].
  unfold getBosses. rewrite Hb, !map_map.
  unfold catalogAllocated in Halloc. rewrite Forall_forall in Halloc.
  repeat split; apply map_ext_in; intros x Hx;
    apply list_elem_of_In, Halloc in Hx;
    (assert (Hne : x <> next st) by lia);
    destruct (Hh2 x Hne) as (Hh & Hm & Hi);
    rewrite ?Hh, ?Hm, ?Hi, (Hh1 x Hne); reflexivity.
Qed.

Lemma damage_spares_catalog_witness :
  bosses (gameData woundedNethys) = bosses (gameData beforeBoss) /\
  map Boss.health (getBosses woundedNethys) = map Boss.health (getBosses beforeBoss) /\
  map Boss.maxHealth (getBosses woundedNethys) = map Boss.maxHealth (getBosses beforeBoss) /\
  map Boss.id (getBosses woundedNethys) = map Boss.id (getBosses beforeBoss).
Proof.
  apply (damage_spares_catalog (BossId "nethys-ancient") 50 beforeBoss
           facingNethys woundedNethys).
  - unfold catalogAllocated. vm_compute. repeat constructor.
  - vm_compute. reflexivity.
  - vm_compute. reflexivity.
Defined.

(** Players. *)

Lemma to_uint_not_Nil (n : nat) : Nat.to_uint n <> Decimal.Nil.
Proof.
  intros H. pose proof (DecimalNat.Unsigned.of_to n) as Hn. rewrite H in Hn.
  cbn in Hn. subst n. discriminate H.
Qed.

Lemma decimal_inj (a b : nat) : decimal a = decimal b -> a = b.
Proof.
  unfold decimal. intros H.
  apply (f_equal NilZero.uint_of_string) in H.
  rewrite !NilZero.usu in H by apply to_uint_not_Nil.
  injection H as H. apply DecimalNat.Unsigned.to_uint_inj. exact H.
Qed.

Lemma append_inj_l (prefix a b : string) : prefix +:+ a = prefix +:+ b -> a = b.
Proof.
  induction prefix as [|c prefix IH]; intros H; [exact H|].
  change (String c (prefix +:+ a) = String c (prefix +:+ b)) in H.
  injection H as H. apply IH. exact H.
Qed.

Lemma playerId_inj (i j : nat) : playerId i = playerId j -> i = j.
Proof.
  unfold playerId. intros H. apply append_inj_l, decimal_inj in H. lia.
Qed.

Lemma NoDup_map_inj {A B : Type} (f : A -> B) (l : list A) :
  (forall x y, f x = f y -> x = y) -> NoDup l -> NoDup (map f l).
Proof.
  intros Hinj. induction 1 as [|x l Hx Hnd IH]; [constructor|].
  cbn [map]. constructor; [|exact IH].
  rewrite list_elem_of_In, in_map_iff. intros (y & Hy & Hin).
  apply Hinj in Hy. subst y. apply Hx, list_elem_of_In. exact Hin.
Qed.

(** With distinct ids, looking a stored player up by its id finds it. *)
Lemma find_by_id (ps : list Player.t) :
  NoDup (map Player.id ps) ->
  forall (i : nat) (p : Player.t),
    ps !! i = Some p ->
    find (fun q => String.eqb (Player.id q) (Player.id p)) ps = Some p.
Proof.
  induction ps as [|q ps IH]; intros Hnd i p Hp; [discriminate Hp|].
  cbn [map] in Hnd. apply NoDup_cons in Hnd as [Hq Hnd].
  cbn [find]. destruct i as [|i].
  - injection Hp as ->. rewrite String.eqb_refl. reflexivity.
  - cbn in Hp. destruct (String.eqb_spec (Player.id q) (Player.id p)) as [Heq|_].
    + exfalso. apply Hq. rewrite Heq. apply list_elem_of_In, in_map, list_elem_of_In.
      eapply list_elem_of_lookup_2. exact Hp.
    + eapply IH; eauto.
Qed.

(** X25.  [startNewGame] with a positive [playerCount] n creates n
    players; the player at index i has the id [player-<i+1>] and the
    name given for that index, or [Player <i+1>] when none or an empty
    one is given; the ids are pairwise distinct, and [getPlayer] finds
    each player by its id. *)
Theorem startNewGame_creates_players (n : Z) (names : option (list string)) (st : t) :
  0 < n ->
  List.length (players (state (startNewGame (Some (mkOptions (Some n) names)) st)))
  = Z.to_nat n /\
  NoDup (map Player.id
           (players (state (startNewGame (Some (mkOptions (Some n) names)) st)))) /\
  forall i : nat,
    (i < Z.to_nat n)%nat ->
    exists p,
      players (state (startNewGame (Some (mkOptions (Some n) names)) st)) !! i = Some p /\
      Player.id p = playerId i /\
      Player.name p = playerName (mkOptions (Some n) names) i /\
      getPlayer (playerId i) (startNewGame (Some (mkOptions (Some n) names)) st) = Some p.
Proof.
  intros Hn.
  set (make := fun i => with_identity ("player-" +:+ decimal (i + 1))
                                      (playerName (mkOptions (Some n) names) i)
                                      defaultPlayer).
  assert (Hps : players (state (startNewGame (Some (mkOptions (Some n) names)) st))
                = map make (seq 0 (Z.to_nat n))).
  { unfold startNewGame. cbn [default from_option id playerCount].
    destruct (Z.eqb_spec n 0) as [->|_]; [lia|]. reflexivity. }
  assert (Hnd : NoDup (map Player.id (map make (seq 0 (Z.to_nat n))))).
  { rewrite map_map. apply NoDup_map_inj; [|apply NoDup_seq].
    intros x y H. apply playerId_inj. exact H. }
  rewrite Hps. split; [rewrite List.length_map, List.length_seq; reflexivity|].
  split; [exact Hnd|].
  intros i Hi. exists (make i).
  assert (Hlook : map make (seq 0 (Z.to_nat n)) !! i = Some (make i)).
  { rewrite StoreProps.lookup_map, lookup_seq_lt by exact Hi. reflexivity. }
  split; [exact Hlook|]. split; [reflexivity|]. split; [reflexivity|].
  unfold getPlayer. rewrite Hps.
  apply (find_by_id _ Hnd i (make i) Hlook).
Qed.

Lemma startNewGame_creates_players_witness :
  List.length
    (players (state (startNewGame (Some (mkOptions (Some 2) (Some ["Amy"; "Bo"]))) create)))
  = Z.to_nat 2 /\
  NoDup (map Player.id
           (players
              (state (startNewGame (Some (mkOptions (Some 2) (Some ["Amy"; "Bo"]))) create)))) /\
  forall i : nat,
    (i < Z.to_nat 2)%nat ->
    exists p,
      players (state (startNewGame (Some (mkOptions (Some 2) (Some ["Amy"; "Bo"]))) create))
        !! i = Some p /\
      Player.id p = playerId i /\
      Player.name p = playerName (mkOptions (Some 2) (Some ["Amy"; "Bo"])) i /\
      getPlayer (playerId i)
        (startNewGame (Some (mkOptions (Some 2) (Some ["Amy"; "Bo"]))) create) = Some p.
Proof.
  apply (startNewGame_creates_players 2 (Some ["Amy"; "Bo"]) create).
  lia.
Defined.

(** Cards. *)




Lemma filter_absent_id (i : string) (cards : list Card.t) :
  countId i cards = O ->
  List.filter (fun c => negb (String.eqb (Card.id c) i)) cards = cards.
Proof.
  unfold countId. induction cards as [|c cards IH]; [reflexivity|].
  cbn [List.filter]. destruct (String.eqb (Card.id c) i); cbn [negb List.length].
  - discriminate.
  - intros H. rewrite IH by exact H. reflexivity.
Qed.

(** X28.  Giving a player a card whose id is not in the hand and then
    playing it to a zone other than the hand leaves the hand as it was
    and the card as the last entry of that zone. *)
Theorem add_then_play (playerId : string) (card : Card.t) (zone : Zone.t) (st : t)
    (i : nat) (p : Player.t) :
  zone <> Zone.hand ->
  players (state st) !! i = Some p ->
  Player.id p = playerId ->
  countId (Card.id card) (Player.hand p) = O ->
  exists p',
    players (state (playCard playerId card zone (addCardToHand playerId card st))) !! i
    = Some p' /\
    Player.hand p' = Player.hand p /\
    getZone zone p' = getZone zone p ++ [card].
Proof.
  intros Hzone Hp Hid Habsent.
  set (p1 := with_hand (Player.hand p ++ [card]) p).
  assert (Hp1 : players (state (addCardToHand playerId card st)) !! i = Some p1).
  { change (players (state (addCardToHand playerId card st)))
      with (map (fun player =>
                   if String.eqb (Player.id player) playerId
                   then with_hand (Player.hand player ++ [card]) player
                   else player)
                (players (state st))).
    rewrite StoreProps.lookup_map, Hp. cbn [option_map].
    rewrite <- Hid, String.eqb_refl. reflexivity. }
  exists (playCardOn card zone p1).
  split.
  - change (players (state (playCard playerId card zone (addCardToHand playerId card st))))
      with (map (fun player =>
                   if String.eqb (Player.id player) playerId
                   then playCardOn card zone player
                   else player)
                (players (state (addCardToHand playerId card st)))).
    rewrite StoreProps.lookup_map, Hp1. cbn [option_map].
    change (Player.id p1) with (Player.id p). rewrite Hid, String.eqb_refl. reflexivity.
  - destruct (StoreProps.playCardOn_zones card zone p1 Hzone) as (_ & Hhand & Htarget).
    rewrite Hhand, Htarget. split.
    + subst p1. cbn [with_hand Player.hand].
      rewrite List.filter_app, filter_absent_id by exact Habsent.
      cbn [List.filter]. rewrite String.eqb_refl. cbn [negb]. apply app_nil_r.
    + subst p1. destruct zone; [contradiction| | |]; reflexivity.
Qed.

Lemma add_then_play_witness :
  exists p',
    players (state (playCard "player-1" bolt Zone.battlefield
                      (addCardToHand "player-1" bolt (startNewGame None create)))) !! O
    = Some p' /\
    Player.hand p' = Player.hand (with_identity "player-1" "Player 1" defaultPlayer) /\
    getZone Zone.battlefield p'
    = getZone Zone.battlefield (with_identity "player-1" "Player 1" defaultPlayer) ++ [bolt].
Proof.
  apply (add_then_play "player-1" bolt Zone.battlefield (startNewGame None create) O
           (with_identity "player-1" "Player 1" defaultPlayer)).
  - discriminate.
  - reflexivity.
  - reflexivity.
  - reflexivity.
Defined.

End StatsProps.

(** ** Presentation helpers *)

Module PresentationProps.
Import Presentation.

Lemma length_append (a b : string) :
  String.length (a +:+ b) = (String.length a + String.length b)%nat.
Proof.
  induction a as [|c a IH]; [reflexivity|].
  change (String c a +:+ b) with (String c (a +:+ b)).
  cbn [String.length]. rewrite IH. reflexivity.
Qed.

Lemma length_substring_prefix (n : nat) (s : string) :
  String.length (substring 0 n s) = Nat.min n (String.length s).
Proof.
  revert s. induction n as [|n IH]; intros [|c s]; cbn; try reflexivity.
  rewrite IH. reflexivity.
Qed.

Lemma prefix_substring (n : nat) (s : string) :
  String.prefix (substring 0 n s) s = true.
Proof.
  revert s. induction n as [|n IH]; intros [|c s]; try reflexivity.
  change (substring 0 (S n) (String c s)) with (String c (substring 0 n s)).
  cbn [String.prefix]. destruct (ascii_dec c c) as [_|Hne]; [apply IH | contradiction].
Qed.

(** X29.  [truncateText] returns the text itself when it fits in
    [maxLength]; otherwise it returns the first [maxLength - 3]
    characters of the text, none if that number is negative, followed
    by three dots.  The result has at most [maxLength] characters if
    [maxLength] is 3 or more, and 3 characters otherwise. *)
Theorem truncateText_length (text : string) (maxLength : Z) :
  Z.of_nat (String.length (truncateText text maxLength)) <= Z.max maxLength 3 /\
  (Z.of_nat (String.length text) <= maxLength -> truncateText text maxLength = text) /\
  (maxLength < Z.of_nat (String.length text) ->
   exists kept,
     truncateText text maxLength = kept +:+ "..." /\
     String.prefix kept text = true /\
     String.length kept = Z.to_nat (maxLength - 3)).
Proof.
  unfold truncateText.
  destruct (Z.leb_spec (Z.of_nat (String.length text)) maxLength) as [Hfits|Hlong].
  - split; [lia|]. split; [reflexivity | lia].
  - split; [|split; [lia|]].
    + rewrite length_append, length_substring_prefix. cbn [String.length]. lia.
    + intros _. exists (substring 0 (Z.to_nat (maxLength - 3)) text).
      split; [reflexivity|]. split; [apply prefix_substring|].
      rewrite length_substring_prefix. lia.
Qed.

Lemma stripBraces_clean (s : string) :
  index 0 "{" (stripBraces s) = None /\ index 0 "}" (stripBraces s) = None.
Proof.
  induction s as [|c s [IHo IHc]]; [split; reflexivity|].
  cbn [stripBraces].
  destruct (Ascii.eqb_spec c "{") as [->|Ho]; [split; assumption|].
  destruct (Ascii.eqb_spec c "}") as [->|Hc]; [split; assumption|].
  cbn [orb].
  change (index 0 "{" (String c (stripBraces s)))
    with (if String.prefix "{" (String c (stripBraces s)) then Some O
          else match index 0 "{" (stripBraces s) with
               | Some n => Some (S n)
               | None => None
               end).
  change (index 0 "}" (String c (stripBraces s)))
    with (if String.prefix "}" (String c (stripBraces s)) then Some O
          else match index 0 "}" (stripBraces s) with
               | Some n => Some (S n)
               | None => None
               end).
  rewrite IHo, IHc. cbn [String.prefix].
  destruct (ascii_dec "{" c) as [<-|_]; [contradiction|].
  destruct (ascii_dec "}" c) as [<-|_]; [contradiction|].
  split; reflexivity.
Qed.

Lemma stripBraces_idempotent (s : string) : stripBraces (stripBraces s) = stripBraces s.
Proof.
  induction s as [|c s IH]; [reflexivity|].
  cbn [stripBraces]. destruct (Ascii.eqb c "{" || Ascii.eqb c "}") eqn:E; [exact IH|].
  cbn [stripBraces]. rewrite E, IH. reflexivity.
Qed.

Lemma length_stripBraces (s : string) :
  (String.length (stripBraces s) <= String.length s)%nat.
Proof.
  induction s as [|c s IH]; [reflexivity|].
  cbn [stripBraces]. destruct (Ascii.eqb c "{" || Ascii.eqb c "}"); cbn [String.length]; lia.
Qed.

(** X30.  The result of [formatManaCost] holds no brace, is never
    longer than the cost given, and is left unchanged when it is
    formatted again; a missing cost gives the empty string. *)
Theorem formatManaCost_clean (manaCost : option string) :
  index 0 "{" (formatManaCost manaCost) = None /\
  index 0 "}" (formatManaCost manaCost) = None /\
  formatManaCost (Some (formatManaCost manaCost)) = formatManaCost manaCost /\
  (String.length (formatManaCost manaCost)
   <= String.length (default "" manaCost))%nat /\
  formatManaCost None = "".
Proof.
  destruct manaCost as [s|]; cbn [formatManaCost default from_option id].
  - destruct (stripBraces_clean s) as [Ho Hc].
    split; [exact Ho|]. split; [exact Hc|].
    split; [apply stripBraces_idempotent|]. split; [apply length_stripBraces | reflexivity].
  - repeat split; reflexivity.
Qed.

End PresentationProps.
